(** * FoodieBot: a shallow embedding of [foodbot.py]

    The development follows the layout of the source file:

    - [Py]      the Python string and truthiness primitives the program uses;
    - [Re]      the fragment of [re] that its patterns are written in;
    - [Sqlite]  the [LIKE] operator and the connection with its two tables;
    - [SortValues], [Numpy]  what [sort_values] promises, and the quicksort
      that computes it;
    - the interest scorer [calculate_interest];
    - the inline intent extraction of the Streamlit body;
    - [FoodieBotDatabase]: [populate_products_safe], [recommend_products],
      [log_conversation], and the in-memory fallback ranking.

    Text is modelled as [string] (a sequence of 8-bit characters); [lower],
    [\w], [\d] and [\s] act on the ASCII range, which is where every literal
    of the program lives.  REAL columns and Python floats are modelled by the
    rational they denote ([Q]); INTEGER columns and Python ints by [Z]. *)

From Stdlib Require Import ZArith QArith Bool List Ascii String Lia.
From Stdlib Require Import Permutation Sorted DecimalString.
Import ListNotations.
Local Open Scope string_scope.
Local Open Scope Z_scope.

(* ================================================================== *)
(** * Python primitives *)
(* ================================================================== *)

Module Py.

(** [c.lower()] on one character of the ASCII range. *)
Definition lower_ascii (c : ascii) : ascii :=
  let n := nat_of_ascii c in
  if (Nat.leb 65 n && Nat.leb n 90)%bool then ascii_of_nat (n + 32) else c.

(** [s.lower()] *)
Fixpoint lower (s : string) : string :=
  match s with
  | EmptyString => EmptyString
  | String c s' => String (lower_ascii c) (lower s')
  end.

(** [s.startswith(p)] *)
Fixpoint startswith (p s : string) : bool :=
  match p, s with
  | EmptyString, _ => true
  | String a p', String b s' => Ascii.eqb a b && startswith p' s'
  | String _ _, EmptyString => false
  end.

(** [p in s] for two strings: [p] occurs in [s] as a contiguous run. *)
Fixpoint contains (p s : string) : bool :=
  startswith p s ||
  match s with
  | EmptyString => false
  | String _ s' => contains p s'
  end.

(** [x in xs] for a string and a list (or set) of strings. *)
Definition mem (x : string) (xs : list string) : bool :=
  existsb (String.eqb x) xs.

(** Truth value of an optional string: [None] and [""] are falsy. *)
Definition truthy_str (o : option string) : bool :=
  match o with
  | Some (String _ _) => true
  | _ => false
  end.

(** Truth value of an optional float: [None] and [0.0] are falsy. *)
Definition truthy_float (o : option Q) : bool :=
  match o with
  | Some q => negb (Qeq_bool q 0)
  | None => false
  end.

(** Truth value of an optional list: [None] and [[]] are falsy. *)
Definition truthy_list {A : Type} (o : option (list A)) : bool :=
  match o with
  | Some (_ :: _) => true
  | _ => false
  end.

(** [int(b)] for a boolean, as [astype(int)] applies it to a column. *)
Definition int_of_bool (b : bool) : Z := if b then 1 else 0.

(** [max(0, min(100, n))] *)
Definition clamp_0_100 (n : Z) : Z := Z.max 0 (Z.min 100 n).

End Py.

(* ================================================================== *)
(** * Regular expressions *)
(* ================================================================== *)

Module Re.

(** The patterns of the program use literals, alternation, sequencing,
    an optional item, greedy repetition of a one-character class, the word
    boundary [\b] and one capturing group. *)
Inductive regex : Type :=
| Lit (s : string)
| Cls (p : ascii -> bool)
| Alt (r1 r2 : regex)
| Seq (r1 r2 : regex)
| Opt (r : regex)
| Star (p : ascii -> bool)
| WordB
| Grp (r : regex).

Definition between (lo hi : nat) (c : ascii) : bool :=
  let n := nat_of_ascii c in (Nat.leb lo n && Nat.leb n hi)%bool.

(** [\d] *)
Definition is_digit (c : ascii) : bool := between 48 57 c.

(** [\w] *)
Definition is_word (c : ascii) : bool :=
  between 48 57 c || between 65 90 c || between 97 122 c
  || Nat.eqb (nat_of_ascii c) 95.

(** [\s]: tab, newline, vertical tab, form feed, carriage return, the four
    information separators and the space. *)
Definition is_space (c : ascii) : bool :=
  between 9 13 c || between 28 31 c || Nat.eqb (nat_of_ascii c) 32.

Definition Never : regex := Cls (fun _ => false).

(** [p+] for a one-character class. *)
Definition Plus (p : ascii -> bool) : regex := Seq (Cls p) (Star p).

(** [(w1|w2|...|wn)] for literal words. *)
Definition any_of (ws : list string) : regex :=
  fold_right (fun w r => Alt (Lit w) r) Never ws.

(** A position in the subject: the character before it and the text after. *)
Definition word_before (prev : option ascii) : bool :=
  match prev with Some c => is_word c | None => false end.

Definition word_after (s : string) : bool :=
  match s with String c _ => is_word c | EmptyString => false end.

(** [\b] holds where exactly one side is a word character. *)
Definition word_boundary (prev : option ascii) (s : string) : bool :=
  xorb (word_before prev) (word_after s).

(** Consume the literal [l] at the front of [s]. *)
Fixpoint strip_lit (l : string) (prev : option ascii) (s : string)
  : option (option ascii * string) :=
  match l with
  | EmptyString => Some (prev, s)
  | String c l' =>
      match s with
      | String d s' => if Ascii.eqb c d then strip_lit l' (Some d) s' else None
      | EmptyString => None
      end
  end.

(** The text of [s] that was consumed to reach its suffix [rest]. *)
Definition consumed (s rest : string) : string :=
  String.substring 0 (String.length s - String.length rest) s.

Section Matcher.
Context {R : Type}.

(** What remains to be done after a sub-pattern matched: the position
    reached and the text of group 1, if it has been closed. *)
Definition cont : Type := option ascii -> string -> option string -> option R.

(** Backtracking matcher in continuation-passing style.  Alternatives are
    tried left to right and repetition is greedy, so the first success
    is the match that [re] reports. *)
Fixpoint rmatch (r : regex) (prev : option ascii) (s : string)
         (cap : option string) (k : cont) {struct r} : option R :=
  match r with
  | Lit l =>
      match strip_lit l prev s with
      | Some (prev', s') => k prev' s' cap
      | None => None
      end
  | Cls p =>
      match s with
      | String c s' => if p c then k (Some c) s' cap else None
      | EmptyString => None
      end
  | Alt r1 r2 =>
      match rmatch r1 prev s cap k with
      | Some x => Some x
      | None => rmatch r2 prev s cap k
      end
  | Seq r1 r2 =>
      rmatch r1 prev s cap (fun prev' s' cap' => rmatch r2 prev' s' cap' k)
  | Opt r1 =>
      match rmatch r1 prev s cap k with
      | Some x => Some x
      | None => k prev s cap
      end
  | Star p =>
      (fix star (prev : option ascii) (s : string) {struct s} : option R :=
         match s with
         | String c s' =>
             if p c then
               match star (Some c) s' with
               | Some x => Some x
               | None => k prev s cap
               end
             else k prev s cap
         | EmptyString => k prev s cap
         end) prev s
  | WordB => if word_boundary prev s then k prev s cap else None
  | Grp r1 =>
      rmatch r1 prev s cap (fun prev' s' _ => k prev' s' (Some (consumed s s')))
  end.
End Matcher.

(** A match object: the text after the match and [group(1)]. *)
Record match_obj : Type := { m_rest : string; m_group1 : option string }.

Definition match_here (r : regex) (prev : option ascii) (s : string)
  : option match_obj :=
  rmatch r prev s None
         (fun _ rest cap => Some {| m_rest := rest; m_group1 := cap |}).

(** [re.search]: the leftmost position at which the pattern matches. *)
Fixpoint search_from (r : regex) (prev : option ascii) (s : string)
  : option match_obj :=
  match match_here r prev s with
  | Some m => Some m
  | None =>
      match s with
      | String c s' => search_from r (Some c) s'
      | EmptyString => None
      end
  end.

Definition search (r : regex) (s : string) : option match_obj :=
  search_from r None s.

(** [re.search(r, s)] used as a condition. *)
Definition found (r : regex) (s : string) : bool :=
  match search r s with Some _ => true | None => false end.

(** [re.findall(r"\w+", s)]: the maximal runs of word characters.  [cur]
    holds the run being read, in reverse. *)
Fixpoint rev_string (acc s : string) : string :=
  match s with
  | EmptyString => acc
  | String c s' => rev_string (String c acc) s'
  end.

Definition flush (cur : string) (out : list string) : list string :=
  match cur with
  | EmptyString => out
  | String _ _ => rev_string EmptyString cur :: out
  end.

Fixpoint words_from (cur : string) (s : string) : list string :=
  match s with
  | EmptyString => flush cur []
  | String c s' =>
      if is_word c then words_from (String c cur) s'
      else flush cur (words_from EmptyString s')
  end.

Definition findall_words (s : string) : list string := words_from EmptyString s.

End Re.

(* ================================================================== *)
(** * Interest score calculator *)
(* ================================================================== *)

Module Patterns.
Import Re.

(** [(spicy|vegan|cheese|burger|pizza|taco|wrap|salad)] *)
Definition food : regex :=
  any_of ["spicy"; "vegan"; "cheese"; "burger"; "pizza"; "taco"; "wrap"; "salad"].

(** [\bunder\b|\bbelow\b] *)
Definition under_below : regex :=
  Alt (Seq WordB (Seq (Lit "under") WordB)) (Seq WordB (Seq (Lit "below") WordB)).

(** [(happy|adventurous|tired|sad|hungry|indulgent)] *)
Definition feeling : regex :=
  any_of ["happy"; "adventurous"; "tired"; "sad"; "hungry"; "indulgent"].

(** [(love|perfect|amazing|great|yum|yummy)] *)
Definition praise : regex :=
  any_of ["love"; "perfect"; "amazing"; "great"; "yum"; "yummy"].

(** [\$\d+] *)
Definition dollar_amount : regex := Seq (Lit "$") (Plus is_digit).

(** [(order|add to cart|take it|i'll take it|i will take it|buy)] *)
Definition purchase : regex :=
  any_of ["order"; "add to cart"; "take it"; "i'll take it"; "i will take it"; "buy"].

(** [\bmaybe\b|\bnot sure\b] *)
Definition hesitation : regex :=
  Alt (Seq WordB (Seq (Lit "maybe") WordB)) (Seq WordB (Seq (Lit "not sure") WordB)).

(** [\bdon'?t like\b|\bnot for me\b|\bhate\b] *)
Definition rejection : regex :=
  Alt (Seq WordB (Seq (Lit "don") (Seq (Opt (Lit "'")) (Seq (Lit "t like") WordB))))
      (Alt (Seq WordB (Seq (Lit "not for me") WordB))
           (Seq WordB (Seq (Lit "hate") WordB))).

(** [under\s*\$?(\d+)] *)
Definition budget : regex :=
  Seq (Lit "under") (Seq (Star is_space) (Seq (Opt (Lit "$")) (Grp (Plus is_digit)))).

End Patterns.

(** [calculate_interest]: the score is threaded through the conditionals in
    the order of the source. *)
Definition calculate_interest (user_input : string) : Z :=
  let score := 0 in
  match user_input with
  | EmptyString => 0
  | String _ _ =>
      let text := Py.lower user_input in
      let score := if Re.found Patterns.food text then score + 15 else score in
      let score := if Py.contains "vegetarian" text || Py.contains "vegan" text
                   then score + 10 else score in
      let score := if Py.contains "$" text || Re.found Patterns.under_below text
                   then score + 5 else score in
      let score := if Re.found Patterns.feeling text then score + 20 else score in
      let score := if Py.contains "?" text then score + 10 else score in
      let score := if Re.found Patterns.praise text then score + 8 else score in
      let score := if Py.contains "how much" text || Py.contains "price" text
                      || Re.found Patterns.dollar_amount text
                   then score + 25 else score in
      let score := if Re.found Patterns.purchase text then score + 30 else score in
      let score := if Re.found Patterns.hesitation text then score - 10 else score in
      let score := if Py.contains "too expensive" text || Py.contains "expensive" text
                   then score - 15 else score in
      let score := if Re.found Patterns.rejection text then score - 25 else score in
      Py.clamp_0_100 score
  end.

(** The rule table of the scorer as the specification presents it: one row
    per lexical cue, with the weight it contributes when its pattern occurs
    in the lowercased text. *)
Definition interest_rules : list ((string -> bool) * Z) :=
  [ (Re.found Patterns.food, 15);
    (fun t => Py.contains "vegetarian" t || Py.contains "vegan" t, 10);
    (fun t => Py.contains "$" t || Re.found Patterns.under_below t, 5);
    (Re.found Patterns.feeling, 20);
    (Py.contains "?", 10);
    (Re.found Patterns.praise, 8);
    (fun t => Py.contains "how much" t || Py.contains "price" t
              || Re.found Patterns.dollar_amount t, 25);
    (Re.found Patterns.purchase, 30);
    (Re.found Patterns.hesitation, -10);
    (fun t => Py.contains "too expensive" t || Py.contains "expensive" t, -15);
    (Re.found Patterns.rejection, -25) ].

(** Sum of the weights of the rules whose pattern occurs in [text]. *)
Definition weighted_sum (rules : list ((string -> bool) * Z)) (text : string) : Z :=
  fold_right (fun (rule : (string -> bool) * Z) acc =>
                (if fst rule text then snd rule else 0) + acc) 0 rules.

(* ================================================================== *)
(** * Data model *)
(* ================================================================== *)

(** A row of the [products] table, which is also a record of
    [generate_products].  The text columns are the strings the generator
    writes; [price] and [calories] are the two columns the loader may store
    as NULL; the JSON columns are modelled by the list they encode. *)
Module Item.
Record t : Type := mk {
  product_id : string;
  name : string;
  category : string;
  description : string;
  ingredients : list string;
  price : option Q;
  calories : option Z;
  prep_time : string;
  dietary_tags : list string;
  mood_tags : list string;
  allergens : list string;
  popularity_score : Z;
  chef_special : Z;
  limited_time : Z;
  spice_level : Z;
  image_prompt : string
}.
End Item.

(** A product dictionary as [populate_products_safe] receives it.  A field
    is [None] when [p.get] finds no value for the key. *)
Module Product.
Record t : Type := mk {
  product_id : string;
  name : string;
  category : string;
  description : string;
  ingredients : option (list string);
  price : option Q;
  calories : option Z;
  prep_time : string;
  dietary_tags : option (list string);
  mood_tags : option (list string);
  allergens : option (list string);
  popularity_score : option Z;
  chef_special : option bool;
  limited_time : option bool;
  spice_level : option Z;
  image_prompt : string
}.
End Product.

(** A data-frame row once the [match_score] column exists. *)
Definition ScoredItem : Type := (Item.t * Z)%type.

Definition item_of (x : ScoredItem) : Item.t := fst x.
Definition match_score (x : ScoredItem) : Z := snd x.

(** A row of the [conversations] table. *)
Module Turn.
Record t : Type := mk {
  id : Z;
  timestamp : string;
  user_message : string;
  bot_response : string;
  interest_score : Z;
  recommended_products : list ScoredItem;
  session_id : string
}.
End Turn.

(** What the inline extraction of the application body derives from the
    user's text. *)
Module Intent.
Record t : Type := mk {
  mood : option string;
  category : option string;
  budget : option Q;
  keywords : list string
}.
End Intent.

(* ================================================================== *)
(** * SQLite *)
(* ================================================================== *)

Module Sqlite.

(** Two characters are equal for [LIKE] when they agree up to ASCII case. *)
Definition eq_nocase (a b : ascii) : bool :=
  Ascii.eqb (Py.lower_ascii a) (Py.lower_ascii b).

(** [s LIKE pat]: [%] stands for any run of characters, [_] for any one
    character, every other character for itself up to ASCII case. *)
Fixpoint like (pat : string) : string -> bool :=
  match pat with
  | EmptyString =>
      fun s => match s with EmptyString => true | String _ _ => false end
  | String c pat' =>
      if Ascii.eqb c "%" then
        fix any (s : string) : bool :=
          like pat' s ||
          match s with EmptyString => false | String _ s' => any s' end
      else if Ascii.eqb c "_" then
        fun s => match s with String _ s' => like pat' s' | EmptyString => false end
      else
        fun s =>
          match s with
          | String d s' => eq_nocase c d && like pat' s'
          | EmptyString => false
          end
  end.

(** A conjunct of the WHERE clause together with its bound parameter. *)
Inductive cond : Type :=
| PriceLe (bound : Q)            (* AND price <= ? *)
| CategoryLike (pattern : string). (* AND category LIKE ? *)

(** A comparison with NULL is not true, so a row without price fails
    [price <= ?]. *)
Definition holds (c : cond) (r : Item.t) : bool :=
  match c with
  | PriceLe bound =>
      match Item.price r with
      | Some p => Qle_bool p bound
      | None => false
      end
  | CategoryLike pattern => like pattern (Item.category r)
  end.

(** [SELECT * FROM products WHERE 1=1 AND ...], rows in table order. *)
Definition select_products (query : list cond) (tbl : list Item.t) : list Item.t :=
  filter (fun r => forallb (fun c => holds c r) query) tbl.

Record Tables : Type := mkTables {
  products : list Item.t;
  conversations : list Turn.t
}.

(** The connection: the committed tables and the tables as the open
    transaction sees them. *)
Record Conn : Type := mkConn {
  durable : Tables;
  working : Tables
}.

(** [INSERT OR REPLACE INTO products]: a row with the same primary key is
    deleted, the new row goes to the end of the table. *)
Definition insert_or_replace (row : Item.t) (tbl : list Item.t) : list Item.t :=
  (filter (fun r => negb (String.eqb (Item.product_id r) (Item.product_id row))) tbl
   ++ [row])%list.

Definition do_insert_product (row : Item.t) (c : Conn) : Conn :=
  {| durable := durable c;
     working := {| products := insert_or_replace row (products (working c));
                   conversations := conversations (working c) |} |}.

(** [INSERT INTO conversations]: the key is the next integer. *)
Definition do_insert_conversation (mk_turn : Z -> Turn.t) (c : Conn) : Conn :=
  let tbl := conversations (working c) in
  {| durable := durable c;
     working := {| products := products (working c);
                   conversations :=
                     (tbl ++ [mk_turn (Z.of_nat (List.length tbl) + 1)])%list |} |}.

(** A SELECT leaves the tables as they are. *)
Definition do_select (c : Conn) : Conn := c.

Definition do_commit (c : Conn) : Conn :=
  {| durable := working c; working := working c |}.

Definition do_rollback (c : Conn) : Conn :=
  {| durable := durable c; working := durable c |}.

(** The connection and what surrounds it: what has been printed, and the
    failures the storage layer is going to report, one entry per statement
    still to come ([Some msg]: the statement raises [sqlite3.Error(msg)]). *)
Record World : Type := mkWorld {
  conn : Conn;
  stdout : list string;
  faults : list (option string)
}.

End Sqlite.

(* ================================================================== *)
(** * Exceptions and state *)
(* ================================================================== *)

(** A computation either returns or raises an [Exception] with a message;
    the world it leaves behind is kept in both cases. *)
Inductive outcome (A : Type) : Type :=
| Ok (a : A)
| Raised (e : string).
Arguments Ok {A} a.
Arguments Raised {A} e.

Definition M (A : Type) : Type := Sqlite.World -> Sqlite.World * outcome A.

Definition ret {A : Type} (a : A) : M A := fun w => (w, Ok a).

Definition raise {A : Type} (e : string) : M A := fun w => (w, Raised e).

Definition bind {A B : Type} (m : M A) (f : A -> M B) : M B :=
  fun w =>
    match m w with
    | (w', Ok a) => f a w'
    | (w', Raised e) => (w', Raised e)
    end.

(** [try: m  except Exception as e: h e] *)
Definition try_except {A : Type} (m : M A) (h : string -> M A) : M A :=
  fun w =>
    match m w with
    | (w', Ok a) => (w', Ok a)
    | (w', Raised e) => h e w'
    end.

Declare Scope py_scope.
Delimit Scope py_scope with py.
Notation "x <- m ;; k" := (bind m (fun x => k))
  (at level 61, m at next level, right associativity) : py_scope.
Notation "m ;;; k" := (bind m (fun _ => k))
  (at level 61, right associativity) : py_scope.

(** One statement sent to the storage layer: it raises if the layer reports
    a failure for it, and otherwise has its effect on the connection. *)
Definition db_step (effect : Sqlite.Conn -> Sqlite.Conn) : M unit :=
  fun w =>
    match Sqlite.faults w with
    | Some msg :: fs =>
        ({| Sqlite.conn := Sqlite.conn w; Sqlite.stdout := Sqlite.stdout w;
            Sqlite.faults := fs |}, Raised msg)
    | None :: fs =>
        ({| Sqlite.conn := effect (Sqlite.conn w); Sqlite.stdout := Sqlite.stdout w;
            Sqlite.faults := fs |}, Ok tt)
    | [] =>
        ({| Sqlite.conn := effect (Sqlite.conn w); Sqlite.stdout := Sqlite.stdout w;
            Sqlite.faults := [] |}, Ok tt)
    end.

(** [print(...)] *)
Definition print (line : string) : M unit :=
  fun w =>
    ({| Sqlite.conn := Sqlite.conn w;
        Sqlite.stdout := (Sqlite.stdout w ++ [line])%list;
        Sqlite.faults := Sqlite.faults w |}, Ok tt).

(** The tables as the connection sees them. *)
Definition get_working : M Sqlite.Tables :=
  fun w => (w, Ok (Sqlite.working (Sqlite.conn w))).

(* ================================================================== *)
(** * pandas *)
(* ================================================================== *)

(** [df.sort_values("match_score", ascending=False)] is called with the
    default [kind="quicksort"].  What pandas promises for it is a
    rearrangement of the rows in which the key never increases; the order of
    rows with equal keys is left to the sorting routine, which NumPy picks
    for the platform.  The engine is written against this interface; the
    portable quicksort of NumPy is one instance of it, further down. *)
Class SortValues : Type := {
  sort_values_desc : list ScoredItem -> list ScoredItem;
  sort_values_perm : forall df, Permutation df (sort_values_desc df);
  sort_values_sorted :
    forall df, StronglySorted (fun a b => match_score b <= match_score a)
                              (sort_values_desc df)
}.

(** [match_score] is a copy of the INTEGER column [popularity_score], which
    pandas reads as an [int64] column.  The arithmetic of such a column
    raises no overflow error: a sum is reduced modulo [2^64] into the range
    from [-2^63] to [2^63 - 1]. *)
Definition int64_min : Z := - 2 ^ 63.
Definition int64_max : Z := 2 ^ 63 - 1.

Definition wrap_int64 (z : Z) : Z := (z + 2 ^ 63) mod 2 ^ 64 - 2 ^ 63.

(** [df["match_score"] += column], where [column] is computed row by row. *)
Definition add_column (column : Item.t -> Z) (df : list ScoredItem) : list ScoredItem :=
  map (fun x => (item_of x, wrap_int64 (match_score x + column (item_of x)))) df.

(** [df.head(10)] *)
Definition head10 {A : Type} (df : list A) : list A := firstn 10 df.

(** [any(kw in ing.lower() for ing in lst)] *)
Definition any_ingredient (kw : string) (lst : list string) : bool :=
  existsb (fun ing => Py.contains kw (Py.lower ing)) lst.

(* ================================================================== *)
(** * FoodieBotDatabase *)
(* ================================================================== *)

Module PopResult.
Record t : Type := mk {
  success : bool;
  inserted : Z;
  error : option string
}.
End PopResult.

Definition or_default {A : Type} (d : A) (o : option A) : A :=
  match o with Some a => a | None => d end.

(** [1 if p.get(key) else 0] *)
Definition flag (o : option bool) : Z :=
  match o with Some true => 1 | _ => 0 end.

(** The tuple bound to the sixteen placeholders of the INSERT. *)
Definition make_row (p : Product.t) : Item.t :=
  {| Item.product_id := Product.product_id p;
     Item.name := Product.name p;
     Item.category := Product.category p;
     Item.description := Product.description p;
     Item.ingredients := or_default [] (Product.ingredients p);
     Item.price := Product.price p;
     Item.calories := Product.calories p;
     Item.prep_time := Product.prep_time p;
     Item.dietary_tags := or_default [] (Product.dietary_tags p);
     Item.mood_tags := or_default [] (Product.mood_tags p);
     Item.allergens := or_default [] (Product.allergens p);
     Item.popularity_score := or_default 0 (Product.popularity_score p);
     Item.chef_special := flag (Product.chef_special p);
     Item.limited_time := flag (Product.limited_time p);
     Item.spice_level := or_default 0 (Product.spice_level p);
     Item.image_prompt := Product.image_prompt p |}.

(** [[rows[i:i+n] for i in range(0, len(rows), n)]] for a positive [n]; the
    fuel is the number of rows, of which every slice takes at least one. *)
Fixpoint slices_fuel {A : Type} (fuel n : nat) (rows : list A) : list (list A) :=
  match fuel with
  | O => []
  | S fuel' =>
      match rows with
      | [] => []
      | _ :: _ => firstn n rows :: slices_fuel fuel' n (skipn n rows)
      end
  end.

Definition slices {A : Type} (n : nat) (rows : list A) : list (list A) :=
  slices_fuel (List.length rows) n rows.

(** The batches the loop visits: [range] rejects a zero step and is empty
    for a negative one. *)
Definition batches_of (rows : list Item.t) (batch_size : Z) : M (list (list Item.t)) :=
  if batch_size =? 0 then raise "range() arg 3 must not be zero"
  else if batch_size <? 0 then ret []
  else ret (slices (Z.to_nat batch_size) rows).

Local Open Scope py_scope.

(** [self.conn.executemany(insert_sql, batch)] *)
Fixpoint executemany (batch : list Item.t) : M unit :=
  match batch with
  | [] => ret tt
  | row :: rest => db_step (Sqlite.do_insert_product row) ;;; executemany rest
  end.

(** The body of the [for] loop over the batches, with the running count. *)
Fixpoint insert_batches (bs : list (list Item.t)) (inserted : Z) : M Z :=
  match bs with
  | [] => ret inserted
  | batch :: rest =>
      executemany batch ;;;
      db_step Sqlite.do_commit ;;;
      insert_batches rest (inserted + Z.of_nat (List.length batch))
  end.

(** [SELECT COUNT( * ) as c FROM products] *)
Definition select_count : M Z :=
  db_step Sqlite.do_select ;;;
  t <- get_working ;;
  ret (Z.of_nat (List.length (Sqlite.products t))).

Definition populate_products_safe (products : list Product.t) (batch_size : Z)
  : M PopResult.t :=
  let result := {| PopResult.success := false; PopResult.inserted := 0;
                   PopResult.error := None |} in
  try_except
    (count <- select_count ;;
     if count >? 0 then
       ret {| PopResult.success := true; PopResult.inserted := 0;
              PopResult.error := PopResult.error result |}
     else
       let rows := map make_row products in
       bs <- batches_of rows batch_size ;;
       inserted <- insert_batches bs 0 ;;
       ret {| PopResult.success := true; PopResult.inserted := inserted;
              PopResult.error := PopResult.error result |})
    (fun e =>
       try_except (db_step Sqlite.do_rollback) (fun _ => ret tt) ;;;
       ret {| PopResult.success := PopResult.success result;
              PopResult.inserted := PopResult.inserted result;
              PopResult.error := Some e |}).

(** [recommend_products], as a function of the [products] table that
    [read_sql_query] reads; the read itself is taken to succeed, the source
    having no handler around it.  The keywords reach the method as [\w+]
    tokens, on which the pattern search of [str.contains] is the search for
    the token itself. *)
Definition recommend_products `{SortValues} (tbl : list Item.t)
           (mood : option string) (budget : option Q)
           (category : option string) (keywords : option (list string))
  : list ScoredItem :=
  let query : list Sqlite.cond := [] in
  let query :=
    match budget with
    | Some b => if Py.truthy_float budget then (query ++ [Sqlite.PriceLe b])%list else query
    | None => query
    end in
  let query :=
    match category with
    | Some c =>
        if Py.truthy_str category
        then (query ++ [Sqlite.CategoryLike ("%" ++ c ++ "%")%string])%list else query
    | None => query
    end in
  let df := Sqlite.select_products query tbl in
  match df with
  | [] => head10 []
  | _ :: _ =>
      let df := map (fun r => (r, Item.popularity_score r)) df in
      let df :=
        match mood with
        | Some m =>
            if Py.truthy_str mood
            then add_column (fun r => if Py.mem m (Item.mood_tags r) then 1 else 0) df
            else df
        | None => df
        end in
      let df :=
        match keywords with
        | Some kws =>
            if Py.truthy_list keywords then
              fold_left
                (fun df kw =>
                   let kw_lower := Py.lower kw in
                   let df := add_column (fun r => Py.int_of_bool
                               (Py.contains kw_lower (Py.lower (Item.name r)))) df in
                   let df := add_column (fun r => Py.int_of_bool
                               (Py.contains kw_lower (Py.lower (Item.description r)))) df in
                   add_column (fun r => Py.int_of_bool
                               (any_ingredient kw_lower (Item.ingredients r))) df)
                kws df
            else df
        | None => df
        end in
      let df := sort_values_desc df in
      head10 df
  end.

(** The ranking of the application body when no database is available,
    computed on the in-memory frame of generated products. *)
Definition fallback_recommend `{SortValues} (FALLBACK_PRODUCTS_DF : list Item.t)
           (mood : option string) (category : option string) (keywords : list string)
  : list ScoredItem :=
  let df := FALLBACK_PRODUCTS_DF in
  let df := map (fun r => (r, Item.popularity_score r)) df in
  let df :=
    match mood with
    | Some m =>
        if Py.truthy_str mood
        then add_column (fun r => if Py.mem m (Item.mood_tags r) then 1 else 0) df
        else df
    | None => df
    end in
  let df :=
    match category with
    | Some c =>
        if Py.truthy_str category
        then add_column (fun r => Py.int_of_bool
               (Py.contains (Py.lower c) (Py.lower (Item.category r)))) df
        else df
    | None => df
    end in
  let df :=
    fold_left
      (fun df kw =>
         let df := add_column (fun r => Py.int_of_bool
                     (Py.contains kw (Py.lower (Item.name r)))) df in
         let df := add_column (fun r => Py.int_of_bool
                     (Py.contains kw (Py.lower (Item.description r)))) df in
         add_column (fun r => Py.int_of_bool
                     (any_ingredient kw (Item.ingredients r))) df)
      keywords df in
  let df := sort_values_desc df in
  head10 df.

(** [log_conversation]; [now] is [datetime.now().isoformat()]. *)
Definition log_conversation (now : string) (user_message bot_response : string)
           (score : Z) (recs : option (list ScoredItem)) (session_id : string)
  : M unit :=
  try_except
    (db_step (Sqlite.do_insert_conversation
                (fun id => {| Turn.id := id;
                              Turn.timestamp := now;
                              Turn.user_message := user_message;
                              Turn.bot_response := bot_response;
                              Turn.interest_score := score;
                              Turn.recommended_products := or_default [] recs;
                              Turn.session_id := session_id |})) ;;;
     db_step Sqlite.do_commit)
    (fun e => print ("log_conversation error: " ++ e)%string).

(* ================================================================== *)
(** * The application body: one user turn *)
(* ================================================================== *)

Definition stopwords : list string :=
  ["i"; "want"; "some"; "a"; "an"; "the"; "please"; "order"].

(** [float(digits)] for a run of decimal digits; the value is kept exact. *)
Definition digit_value (c : ascii) : Z := Z.of_nat (nat_of_ascii c - 48).

Fixpoint int_of_digits (acc : Z) (s : string) : Z :=
  match s with
  | EmptyString => acc
  | String c s' => int_of_digits (10 * acc + digit_value c) s'
  end.

Definition float_of_digits (s : string) : Q := inject_Z (int_of_digits 0 s).

(** Keyword, category, mood and budget detection. *)
Definition extract_intent (user_input : string) : Intent.t :=
  let text := Py.lower user_input in
  let keywords :=
    filter (fun kw => negb (Py.mem kw stopwords)) (Re.findall_words text) in
  let mood : option string := None in
  let category : option string := None in
  let category :=
    if Py.contains "burger" text then Some "Burgers"
    else if Py.contains "pizza" text then Some "Pizza"
    else if Py.contains "chicken" text then Some "Fried Chicken"
    else category in
  let mood := if Py.contains "spicy" text then Some "spicy" else mood in
  let budget_match := Re.search Patterns.budget text in
  let budget :=
    match budget_match with
    | Some m => Some (float_of_digits (or_default "" (Re.m_group1 m)))
    | None => None
    end in
  {| Intent.mood := mood; Intent.category := category;
     Intent.budget := budget; Intent.keywords := keywords |}.

(** What a turn adds to the chat history. *)
Module Reply.
Record t : Type := mk {
  bot_msg : string;
  score : Z;
  recs : list ScoredItem
}.
End Reply.

Definition str_of_nat (n : nat) : string :=
  DecimalString.NilZero.string_of_uint (Nat.to_uint n).

Definition bot_message (recs : list ScoredItem) : string :=
  match recs with
  | _ :: _ => "I found " ++ str_of_nat (List.length recs) ++ " good matches for you!"
  | [] => "Hmm, I couldn’t find a perfect match. Try rephrasing."
  end.

(** The [if user_input:] block.  [db] tells whether the database object
    exists; without it the fallback frame is ranked and nothing is logged. *)
Definition on_user_input `{SortValues} (db : bool)
           (FALLBACK_PRODUCTS_DF : list Item.t)
           (session_id now user_input : string) : M (option Reply.t) :=
  match user_input with
  | EmptyString => ret None
  | String _ _ =>
      let score := calculate_interest user_input in
      let intent := extract_intent user_input in
      recs <-
        (if db then
           t <- get_working ;;
           ret (recommend_products (Sqlite.products t)
                  (Intent.mood intent) (Intent.budget intent)
                  (Intent.category intent) (Some (Intent.keywords intent)))
         else
           ret (fallback_recommend FALLBACK_PRODUCTS_DF
                  (Intent.mood intent) (Intent.category intent)
                  (Intent.keywords intent))) ;;
      let bot_msg := bot_message recs in
      (if db then log_conversation now user_input bot_msg score (Some recs) session_id
       else ret tt) ;;;
      ret (Some {| Reply.bot_msg := bot_msg; Reply.score := score; Reply.recs := recs |})
  end.

Local Close Scope py_scope.

(* ================================================================== *)
(** * Reference definitions for the ranking *)
(* ================================================================== *)

(** Two sorting routines for the [SortValues] interface.  Both insert the
    rows one at a time into a list kept in descending order of the key; a row
    is placed before the rows of equal key ([ties_after = false], which keeps
    the input order of ties) or after them ([ties_after = true], which
    reverses it). *)
Fixpoint insert_desc (ties_after : bool) (x : ScoredItem) (l : list ScoredItem)
  : list ScoredItem :=
  match l with
  | [] => [x]
  | y :: l' =>
      if (if ties_after then match_score y <? match_score x
          else match_score y <=? match_score x)
      then x :: y :: l'
      else y :: insert_desc ties_after x l'
  end.

Definition insertion_sort_desc (ties_after : bool) (df : list ScoredItem)
  : list ScoredItem :=
  fold_right (insert_desc ties_after) [] df.



(** The WHERE clause that [recommend_products] builds. *)
Definition db_query (budget : option Q) (category : option string)
  : list Sqlite.cond :=
  ((if Py.truthy_float budget then [Sqlite.PriceLe (or_default 0%Q budget)] else [])
   ++ (if Py.truthy_str category
       then [Sqlite.CategoryLike ("%" ++ or_default "" category ++ "%")%string]
       else []))%list.

(** The three tests made for one keyword. *)
Definition keyword_hits (kw : string) (r : Item.t) : Z :=
  Py.int_of_bool (Py.contains kw (Py.lower (Item.name r)))
  + Py.int_of_bool (Py.contains kw (Py.lower (Item.description r)))
  + Py.int_of_bool (any_ingredient kw (Item.ingredients r)).

(** The sum of the hits of every keyword of the list, one term per
    occurrence; [norm] is what is done to a keyword before it is searched. *)
Definition keywords_bonus (norm : string -> string) (kws : list string)
           (r : Item.t) : Z :=
  fold_right (fun kw acc => keyword_hits (norm kw) r + acc) 0 kws.

Definition mood_bonus (mood : option string) (r : Item.t) : Z :=
  match mood with
  | Some m => if Py.truthy_str mood && Py.mem m (Item.mood_tags r) then 1 else 0
  | None => 0
  end.

Definition category_bonus (category : option string) (r : Item.t) : Z :=
  match category with
  | Some c =>
      if Py.truthy_str category
         && Py.contains (Py.lower c) (Py.lower (Item.category r))
      then 1 else 0
  | None => 0
  end.

(** The match score as the specification words it: the popularity, one
    point for the mood, one for the category, and the keyword hits. *)
Definition spec_match_score (mood category : option string)
           (keywords : list string) (r : Item.t) : Z :=
  Item.popularity_score r + mood_bonus mood r + category_bonus category r
  + keywords_bonus Py.lower keywords r.

(** The same scores row by row, with the additions made in the order of
    the code and in the arithmetic of the column.  [mood_row_step] is the
    mood line, [category_row_step] the category line of the fallback, and
    [keyword_row_step] the three additions of one round of the keyword
    loop. *)
Definition mood_row_step (mood : option string) (r : Item.t) (s : Z) : Z :=
  match mood with
  | Some m =>
      if Py.truthy_str mood
      then wrap_int64 (s + (if Py.mem m (Item.mood_tags r) then 1 else 0))
      else s
  | None => s
  end.

Definition category_row_step (category : option string) (r : Item.t) (s : Z) : Z :=
  match category with
  | Some c =>
      if Py.truthy_str category
      then wrap_int64 (s + Py.int_of_bool
                         (Py.contains (Py.lower c) (Py.lower (Item.category r))))
      else s
  | None => s
  end.

Definition keyword_row_step (norm : string -> string) (r : Item.t)
           (s : Z) (kw : string) : Z :=
  let kw' := norm kw in
  let s := wrap_int64 (s + Py.int_of_bool
                         (Py.contains kw' (Py.lower (Item.name r)))) in
  let s := wrap_int64 (s + Py.int_of_bool
                         (Py.contains kw' (Py.lower (Item.description r)))) in
  wrap_int64 (s + Py.int_of_bool (any_ingredient kw' (Item.ingredients r))).

(** The score that [recommend_products] gives to a row that passed the
    query: the popularity, then the mood line, then the keyword loop. *)
Definition db_match_score (mood : option string) (keywords : option (list string))
           (r : Item.t) : Z :=
  fold_left (keyword_row_step Py.lower r) (or_default [] keywords)
            (mood_row_step mood r (Item.popularity_score r)).

(** The score of the fallback ranking: the category line comes after the
    mood line, and the keywords are searched as they are. *)
Definition fallback_match_score (mood category : option string)
           (keywords : list string) (r : Item.t) : Z :=
  fold_left (keyword_row_step (fun kw => kw) r) keywords
            (category_row_step category r
               (mood_row_step mood r (Item.popularity_score r))).

(** The sums these scores stand for as long as no addition leaves the range
    of the column. *)
Definition db_match_sum (mood : option string) (keywords : option (list string))
           (r : Item.t) : Z :=
  Item.popularity_score r + mood_bonus mood r
  + keywords_bonus Py.lower (or_default [] keywords) r.


(** One round of the keyword loop, for a keyword normalised by [norm]. *)
Definition keyword_step (norm : string -> string)
           (df : list ScoredItem) (kw : string) : list ScoredItem :=
  let kw' := norm kw in
  let df := add_column (fun r => Py.int_of_bool
              (Py.contains kw' (Py.lower (Item.name r)))) df in
  let df := add_column (fun r => Py.int_of_bool
              (Py.contains kw' (Py.lower (Item.description r)))) df in
  add_column (fun r => Py.int_of_bool (any_ingredient kw' (Item.ingredients r))) df.

(** A category free of the [LIKE] wildcards, as the three categories the
    application passes are. *)
Fixpoint no_wildcard (c : string) : bool :=
  match c with
  | EmptyString => true
  | String a c' =>
      negb (Ascii.eqb a "%") && negb (Ascii.eqb a "_") && no_wildcard c'
  end.

(** No transaction is open: the connection sees what is committed. *)
Definition quiescent (w : Sqlite.World) : Prop :=
  Sqlite.working (Sqlite.conn w) = Sqlite.durable (Sqlite.conn w).

(** The failure, if any, that the storage layer reports for the next
    statement. *)
Definition next_fault (w : Sqlite.World) : option string :=
  match Sqlite.faults w with
  | Some msg :: _ => Some msg
  | _ => None
  end.

(** The row that [log_conversation] asks the storage layer to insert. *)
Definition logged_turn (now user_message bot_response : string) (score : Z)
           (recs : option (list ScoredItem)) (session_id : string) (id : Z) : Turn.t :=
  {| Turn.id := id;
     Turn.timestamp := now;
     Turn.user_message := user_message;
     Turn.bot_response := bot_response;
     Turn.interest_score := score;
     Turn.recommended_products := or_default [] recs;
     Turn.session_id := session_id |}.

(** The line printed when the log could not be written. *)
Definition log_error_line (msg : string) : string :=
  "log_conversation error: " ++ msg.

(** The answer to a user input as a function of the products table that is
    read ([db = true]) or of the fallback frame ([db = false]). *)
Definition reply_to `{SortValues} (db : bool) (tbl FALLBACK_PRODUCTS_DF : list Item.t)
           (user_input : string) : option Reply.t :=
  match user_input with
  | EmptyString => None
  | String _ _ =>
      let intent := extract_intent user_input in
      let recs :=
        if db then
          recommend_products tbl (Intent.mood intent) (Intent.budget intent)
                             (Intent.category intent) (Some (Intent.keywords intent))
        else
          fallback_recommend FALLBACK_PRODUCTS_DF (Intent.mood intent)
                             (Intent.category intent) (Intent.keywords intent) in
      Some {| Reply.bot_msg := bot_message recs;
              Reply.score := calculate_interest user_input;
              Reply.recs := recs |}
  end.

(* ================================================================== *)
(** * The sorting routine behind [sort_values] *)
(* ================================================================== *)

(** [kind="quicksort"] is NumPy's indirect quicksort on the key column: a
    median-of-three partition for ranges of more than seventeen entries, and
    an insertion sort for shorter ones.  It works on the array [a] of row
    numbers; [v] is the key column.  Positions in [a] are natural numbers.
    The heap sort that NumPy switches to when a range taken from its stack
    is nested deeper than twice the bit length of the row count is not
    written out: [argsort] answers [None] there (no frame below 38 rows gets
    that deep). *)
Module Numpy.

Definition get (a : list nat) (p : nat) : nat := nth p a 0%nat.

Fixpoint set (a : list nat) (p x : nat) : list nat :=
  match a, p with
  | [], _ => []
  | _ :: t, O => x :: t
  | h :: t, S p' => h :: set t p' x
  end.

(** [INTP_SWAP( *p, *q)] *)
Definition swap (a : list nat) (p q : nat) : list nat :=
  let x := get a p in
  let y := get a q in
  set (set a p y) q x.

Section Argsort.
Variable v : list Z.

(** [v[*p]] *)
Definition val (a : list nat) (p : nat) : Z := nth (get a p) v 0.

(** [do { ++pi; } while (v[*pi] < vp);] *)
Fixpoint scan_up (fuel : nat) (a : list nat) (vp : Z) (pi : nat) : nat :=
  match fuel with
  | O => pi
  | S fuel' =>
      let pi := S pi in
      if val a pi <? vp then scan_up fuel' a vp pi else pi
  end.

(** [do { --pj; } while (vp < v[*pj]);] *)
Fixpoint scan_down (fuel : nat) (a : list nat) (vp : Z) (pj : nat) : nat :=
  match fuel with
  | O => pj
  | S fuel' =>
      let pj := Nat.pred pj in
      if vp <? val a pj then scan_down fuel' a vp pj else pj
  end.

(** The [for (;;)] loop of the partition; it returns the array and [pi]. *)
Fixpoint partition_loop (fuel : nat) (a : list nat) (vp : Z) (pi pj : nat)
  : list nat * nat :=
  match fuel with
  | O => (a, pi)
  | S fuel' =>
      let pi := scan_up (List.length a) a vp pi in
      let pj := scan_down (List.length a) a vp pj in
      if Nat.leb pj pi then (a, pi)
      else partition_loop fuel' (swap a pi pj) vp pi pj
  end.

(** [while (pj > pl && vp < v[*pk]) { *pj-- = *pk--; }] with [pk = pj - 1];
    it returns the array and [pj]. *)
Fixpoint shift (fuel : nat) (a : list nat) (pl : nat) (vp : Z) (pj : nat)
  : list nat * nat :=
  match fuel with
  | O => (a, pj)
  | S fuel' =>
      if Nat.ltb pl pj && (vp <? val a (pj - 1))
      then shift fuel' (set a pj (get a (pj - 1))) pl vp (pj - 1)
      else (a, pj)
  end.

(** The insertion sort of [a[pl..pr]]: [count] rounds, for [pi] from
    [pl + 1] to [pr]. *)
Fixpoint insertion (count : nat) (a : list nat) (pl pi : nat) : list nat :=
  match count with
  | O => a
  | S count' =>
      let vi := get a pi in
      let vp := nth vi v 0 in
      let '(a', pj) := shift (List.length a) a pl vp pi in
      insertion count' (set a' pj vi) pl (S pi)
  end.

(** The range [a[pl..pr]] with the depth budget [cdepth].  The smaller side
    of a partition is continued with, the larger side is taken from the
    stack later; [popped] tells which of the two a call stands for, and only
    a range taken from the stack has its depth checked. *)
Fixpoint sort_range (fuel : nat) (popped : bool) (cdepth : Z)
         (a : list nat) (pl pr : nat) : option (list nat) :=
  match fuel with
  | O => None
  | S fuel' =>
      if popped && (cdepth <? 0) then None
      else if Nat.ltb 16 (pr - pl) then
        let pm := (pl + Nat.div2 (pr - pl))%nat in
        let a := if val a pm <? val a pl then swap a pm pl else a in
        let a := if val a pr <? val a pm then swap a pr pm else a in
        let a := if val a pm <? val a pl then swap a pm pl else a in
        let vp := val a pm in
        let a := swap a pm (pr - 1) in
        let '(a, pi) := partition_loop (List.length a) a vp pl (pr - 1) in
        let a := swap a pi (pr - 1) in
        let cdepth := cdepth - 1 in
        if Nat.ltb (pi - pl) (pr - pi) then
          match sort_range fuel' false cdepth a pl (pi - 1) with
          | Some a => sort_range fuel' true cdepth a (pi + 1) pr
          | None => None
          end
        else
          match sort_range fuel' false cdepth a (pi + 1) pr with
          | Some a => sort_range fuel' true cdepth a pl (pi - 1)
          | None => None
          end
      else Some (insertion (pr - pl) a pl (S pl))
  end.

(** [npy_get_msb]: the position of the highest set bit. *)
Definition msb (n : nat) : Z := Z.log2 (Z.of_nat n).

(** [v.argsort(kind="quicksort")] *)
Definition argsort : option (list nat) :=
  let num := List.length v in
  match num with
  | O => Some []
  | S _ => sort_range (S num) false (msb num * 2) (seq 0 num) 0 (num - 1)
  end.

End Argsort.
End Numpy.

(** [nargsort(k, kind="quicksort", ascending=False)]: the keys and the row
    numbers are reversed, the keys are sorted indirectly in ascending order,
    and the resulting order of the rows is reversed. *)
Definition nargsort_desc (keys : list Z) : option (list nat) :=
  let idx := seq 0 (List.length keys) in
  let non_nans := rev keys in
  let non_nan_idx := rev idx in
  match Numpy.argsort non_nans with
  | Some order => Some (rev (map (fun i => nth i non_nan_idx 0%nat) order))
  | None => None
  end.

(** [df.iloc[indexer]] *)
Definition take_rows {A : Type} (df : list A) (indexer : list nat) : list A :=
  flat_map (fun i => match nth_error df i with Some x => [x] | None => [] end)
           indexer.

(** The two promises of [sort_values], as checks on a result. *)
Fixpoint descending (l : list ScoredItem) : bool :=
  match l with
  | x :: t =>
      match t with
      | y :: _ => (match_score y <=? match_score x) && descending t
      | [] => true
      end
  | [] => true
  end.

Fixpoint insert_nat (x : nat) (l : list nat) : list nat :=
  match l with
  | [] => [x]
  | y :: t => if Nat.leb x y then x :: y :: t else y :: insert_nat x t
  end.

Definition sort_nat (l : list nat) : list nat := fold_right insert_nat [] l.

(** [indexer] names every row of a frame of [n] rows once. *)
Definition rearranges (indexer : list nat) (n : nat) : bool :=
  if list_eq_dec Nat.eq_dec (sort_nat indexer) (seq 0 n) then true else false.

(** [df.sort_values("match_score", ascending=False)] with NumPy's quicksort.
    The order NumPy computes is used whenever it names every row once and
    the keys descend along it, as the order of a sorting routine does; this
    is checked on the result, so that no proof about the quicksort is
    needed.  Otherwise, and where NumPy would use its heap sort, the rows
    are sorted by insertion. *)
Definition numpy_sort_values (df : list ScoredItem) : list ScoredItem :=
  match nargsort_desc (map match_score df) with
  | Some indexer =>
      let out := take_rows df indexer in
      if rearranges indexer (List.length df) && descending out then out
      else insertion_sort_desc false df
  | None => insertion_sort_desc false df
  end.

(* ================================================================== *)
(** * Sample catalog *)
(* ================================================================== *)

(** What [generate_products] draws at random for one product. *)
Module Draw.
Record t : Type := mk {
  price : Q;
  calories : Z;
  prep_minutes : nat;
  dietary_tags : list string;
  mood_tags : list string;
  allergens : list string;
  popularity_score : Z;
  chef_special : bool;
  limited_time : bool;
  spice_level : Z
}.
End Draw.

Definition categories : list (string * list string) :=
  [ ("Burgers", ["Spicy Fusion Dragon Burger"; "Classic All-American Burger";
                 "Plant-Based Beyond Burger"; "BBQ Bacon Cheeseburger"]);
    ("Pizza", ["Margherita Classica"; "Meat Lovers Supreme";
               "BBQ Chicken Pineapple"; "Vegan Mediterranean"]);
    ("Fried Chicken", ["Nashville Hot Wings"; "Honey Garlic Tenders";
                       "Korean Fried Chicken"; "Classic Fried Chicken"]);
    ("Tacos & Wraps", ["Korean Beef Taco"; "Crispy Fish Taco";
                       "Buffalo Chicken Wrap"; "Veggie Hummus Wrap"]);
    ("Desserts", ["Chocolate Cake Slice"; "Ice Cream Sundae";
                  "Mini Cheesecake"; "Brownie"]) ].

(** [f"FF{pid:03d}"] *)
Definition product_code (pid : nat) : string :=
  "FF" ++ (if Nat.ltb pid 10 then "00" else if Nat.ltb pid 100 then "0" else "")
       ++ str_of_nat pid.

(** The dictionary built in the inner loop of [generate_products]. *)
Definition generate_product (draw : Draw.t) (pid : nat) (cat name : string)
  : Product.t :=
  {| Product.product_id := product_code pid;
     Product.name := name;
     Product.category := cat;
     Product.description := name ++ " — a delicious " ++ Py.lower cat ++ " option.";
     Product.ingredients := Some ["main ingredient"; "seasoning"; "garnish"];
     Product.price := Some (Draw.price draw);
     Product.calories := Some (Draw.calories draw);
     Product.prep_time := str_of_nat (Draw.prep_minutes draw) ++ " mins";
     Product.dietary_tags := Some (Draw.dietary_tags draw);
     Product.mood_tags := Some (Draw.mood_tags draw);
     Product.allergens := Some (Draw.allergens draw);
     Product.popularity_score := Some (Draw.popularity_score draw);
     Product.chef_special := Some (Draw.chef_special draw);
     Product.limited_time := Some (Draw.limited_time draw);
     Product.spice_level := Some (Draw.spice_level draw);
     Product.image_prompt := "photo of " ++ Py.lower name |}.

(** The inner loop over the names of a category; [pid] is the counter. *)
Fixpoint generate_names (draws : nat -> Draw.t) (cat : string)
         (names : list string) (pid : nat) : list Product.t * nat :=
  match names with
  | [] => ([], pid)
  | name :: rest =>
      let product := generate_product (draws pid) pid cat name in
      let '(products, pid') := generate_names draws cat rest (S pid) in
      (product :: products, pid')
  end.

(** The outer loop over the categories. *)
Fixpoint generate_categories (draws : nat -> Draw.t)
         (cats : list (string * list string)) (pid : nat) : list Product.t :=
  match cats with
  | [] => []
  | (cat, names) :: rest =>
      let '(products, pid') := generate_names draws cat names pid in
      (products ++ generate_categories draws rest pid')%list
  end.

(** [generate_products], as a function of what is drawn for each product
    number. *)
Definition generate_products (draws : nat -> Draw.t) : list Product.t :=
  generate_categories draws categories 1.

(** A draw with the given price, mood tags and popularity. *)
Definition draw_of (price : Q) (moods : list string) (popularity : Z) : Draw.t :=
  {| Draw.price := price;
     Draw.calories := 540;
     Draw.prep_minutes := 12;
     Draw.dietary_tags := ["classic"; "gourmet"];
     Draw.mood_tags := moods;
     Draw.allergens := ["gluten"];
     Draw.popularity_score := popularity;
     Draw.chef_special := false;
     Draw.limited_time := true;
     Draw.spice_level := 4 |}.

(** The rows of the end-to-end scenario and a few more. *)
Definition dragon_burger_product : Product.t :=
  generate_product (draw_of (999 # 100) ["spicy"; "adventurous"] 80)
                   1 "Burgers" "Spicy Fusion Dragon Burger".

Definition classic_burger_product : Product.t :=
  generate_product (draw_of (17 # 2) ["comfort"; "indulgent"] 95)
                   2 "Burgers" "Classic All-American Burger".

Definition beyond_burger_product : Product.t :=
  generate_product (draw_of (10 # 1) ["healthy"; "adventurous"] 72)
                   3 "Burgers" "Plant-Based Beyond Burger".

Definition bacon_burger_product : Product.t :=
  generate_product (draw_of (25 # 2) ["comfort"; "indulgent"] 88)
                   4 "Burgers" "BBQ Bacon Cheeseburger".

Definition honey_tenders_product : Product.t :=
  generate_product (draw_of (25 # 2) ["comfort"; "healthy"] 80)
                   10 "Fried Chicken" "Honey Garlic Tenders".

(** The twenty generated products when every popularity drawn is 80. *)
Definition tied_catalog : list Item.t :=
  map make_row
      (generate_products (fun _ => draw_of (999 # 100) ["comfort"; "healthy"] 80)).

Definition dragon_burger : Item.t := make_row dragon_burger_product.
Definition classic_burger : Item.t := make_row classic_burger_product.
Definition honey_tenders : Item.t := make_row honey_tenders_product.
Definition beyond_burger : Item.t := make_row beyond_burger_product.
Definition bacon_burger : Item.t := make_row bacon_burger_product.

(** A freshly opened connection on an empty database, with nothing printed
    and no failure to come. *)
Definition empty_tables : Sqlite.Tables :=
  {| Sqlite.products := []; Sqlite.conversations := [] |}.

Definition fresh_world : Sqlite.World :=
  {| Sqlite.conn := {| Sqlite.durable := empty_tables; Sqlite.working := empty_tables |};
     Sqlite.stdout := [];
     Sqlite.faults := [] |}.

(* ================================================================== *)
(** * Properties of the interest scorer *)
(* ================================================================== *)

(** ** Searching for one of several literal words *)

Definition is_some {A : Type} (o : option A) : bool :=
  match o with Some _ => true | None => false end.

Lemma strip_lit_startswith (l : string) :
  forall (prev : option ascii) (s : string),
    is_some (Re.strip_lit l prev s) = Py.startswith l s.
Proof.
  induction l as [|c l IH]; intros prev s; simpl.
  - reflexivity.
  - destruct s as [|d s]; [reflexivity|].
    destruct (Ascii.eqb c d); [apply IH | reflexivity].
Qed.

(** At one position, the alternation of literals matches when one of the
    words starts there. *)
Lemma match_here_any_of (ws : list string) (prev : option ascii) (s : string) :
  is_some (Re.match_here (Re.any_of ws) prev s)
  = existsb (fun w => Py.startswith w s) ws.
Proof.
  unfold Re.match_here. induction ws as [|w ws IH]; simpl.
  - destruct s; reflexivity.
  - rewrite <- (strip_lit_startswith w prev s).
    destruct (Re.strip_lit w prev s) as [[prev' s']|]; simpl.
    + reflexivity.
    + exact IH.
Qed.

Lemma existsb_pointwise {A : Type} (f g : A -> bool) (l : list A) :
  (forall x, f x = g x) -> existsb f l = existsb g l.
Proof.
  intro Hfg. induction l as [|x l IH]; simpl; [reflexivity|].
  rewrite Hfg, IH. reflexivity.
Qed.

Lemma existsb_orb {A : Type} (f g : A -> bool) (l : list A) :
  existsb (fun x => f x || g x) l = existsb f l || existsb g l.
Proof.
  induction l as [|x l IH]; simpl; [reflexivity|].
  rewrite IH. destruct (f x), (g x), (existsb f l); reflexivity.
Qed.

(** [re.search("(w1|...|wn)", s)] finds a match exactly when one of the
    words occurs in [s]. *)
Lemma found_any_of (ws : list string) (s : string) :
  Re.found (Re.any_of ws) s = existsb (fun w => Py.contains w s) ws.
Proof.
  unfold Re.found, Re.search.
  change (is_some (Re.search_from (Re.any_of ws) None s)
          = existsb (fun w => Py.contains w s) ws).
  generalize (@None ascii) as prev.
  induction s as [|c s IH]; intro prev.
  - cbn [Re.search_from].
    pose proof (match_here_any_of ws prev "") as Hm.
    destruct (Re.match_here (Re.any_of ws) prev "") as [m|]; cbn [is_some] in *.
    + rewrite Hm. apply existsb_pointwise. intros w. cbn [Py.contains].
      rewrite orb_false_r. reflexivity.
    + rewrite Hm. apply existsb_pointwise. intros w. cbn [Py.contains].
      rewrite orb_false_r. reflexivity.
  - cbn [Re.search_from].
    pose proof (match_here_any_of ws prev (String c s)) as Hm.
    transitivity (existsb (fun w => Py.startswith w (String c s)) ws
                  || existsb (fun w => Py.contains w s) ws).
    + destruct (Re.match_here (Re.any_of ws) prev (String c s)) as [m|];
        cbn [is_some] in *.
      * rewrite <- Hm. reflexivity.
      * rewrite <- Hm. cbn [orb]. apply IH.
    + rewrite <- existsb_orb. apply existsb_pointwise. intros w. reflexivity.
Qed.

(** The purchase rule applies when one of its six phrases occurs in the
    text. *)
Lemma purchase_rule (text : string) :
  Re.found Patterns.purchase text
  = existsb (fun w => Py.contains w text)
            ["order"; "add to cart"; "take it"; "i'll take it"; "i will take it"; "buy"].
Proof. apply found_any_of. Qed.

(** ** The score *)


Lemma clamp_0_100_id (n : Z) : 0 <= n <= 100 -> Py.clamp_0_100 n = n.
Proof. unfold Py.clamp_0_100. lia. Qed.

(** A conditional update of the running score adds the weight or nothing. *)
Lemma cond_add (b : bool) (s w : Z) :
  (if b then s + w else s) = s + (if b then w else 0).
Proof. destruct b; lia. Qed.

Lemma cond_sub (b : bool) (s w : Z) :
  (if b then s - w else s) = s + (if b then - w else 0).
Proof. destruct b; lia. Qed.

(** The chain of conditionals computes the clamped sum of the rule table. *)
Lemma calculate_interest_unfold (c : ascii) (rest : string) :
  calculate_interest (String c rest) =
  Py.clamp_0_100 (weighted_sum interest_rules (Py.lower (String c rest))).
Proof.
  cbv beta iota zeta delta [calculate_interest weighted_sum interest_rules fold_right fst snd].
  f_equal.
  rewrite !cond_add, !cond_sub.
  cbv beta iota delta [Z.opp].
  ring.
Qed.


(** Two rules that both apply are both counted: a text with a food noun and
    a question mark scores 15 + 10. *)
Example calculate_interest_rules_add : calculate_interest "pizza?" = 25.
Proof. vm_compute. reflexivity. Qed.

(** C8. The text "I'll take it, it's amazing!" scores at least 38: the
    purchase rule (30) and the positive-sentiment rule (8) both apply, and
    the score is the unclamped sum of the rule weights. *)
Theorem calculate_interest_take_it_amazing :
  let text := "I'll take it, it's amazing!" in
  38 <= calculate_interest text
  /\ Re.found Patterns.purchase (Py.lower text) = true
  /\ Re.found Patterns.praise (Py.lower text) = true
  /\ calculate_interest text = weighted_sum interest_rules (Py.lower text)
  /\ calculate_interest text = 30 + 8.
Proof. vm_compute. repeat split; congruence. Qed.

(* ================================================================== *)
(** * Properties of the intent extraction *)
(* ================================================================== *)

(** C7. On "spicy burger under $10" the extraction yields the category
    Burgers, the mood spicy and the budget 10.  The budget is the number of
    the first "under N" pattern of the text, and it is an inclusive bound:
    the query built from this intent keeps a burger priced exactly 10 and
    drops one priced 12.50. *)
Theorem extract_intent_spicy_burger_under_10 :
  let intent := extract_intent "spicy burger under $10" in
  Intent.category intent = Some "Burgers"
  /\ Intent.mood intent = Some "spicy"
  /\ Intent.budget intent = Some (10 # 1)
  /\ Intent.budget (extract_intent "under 7 or under $12") = Some (7 # 1)
  /\ Item.price beyond_burger = Some (10 # 1)
  /\ Sqlite.select_products
       (db_query (Intent.budget intent) (Intent.category intent))
       [beyond_burger; bacon_burger]
     = [beyond_burger].
Proof. vm_compute. repeat split; reflexivity. Qed.

Example extract_intent_keywords :
  Intent.keywords (extract_intent "I want a spicy burger under $10")
  = ["spicy"; "burger"; "under"; "10"].
Proof. vm_compute. reflexivity. Qed.

Example extract_intent_empty :
  extract_intent "" = {| Intent.mood := None; Intent.category := None;
                         Intent.budget := None; Intent.keywords := [] |}.
Proof. vm_compute. reflexivity. Qed.

(* ================================================================== *)
(** * The sorting interface *)
(* ================================================================== *)

Section InsertionSort.
Variable ties_after : bool.

Lemma insert_desc_perm (x : ScoredItem) (l : list ScoredItem) :
  Permutation (x :: l) (insert_desc ties_after x l).
Proof.
  induction l as [|y l IH]; simpl.
  - apply Permutation_refl.
  - destruct (if ties_after then _ else _).
    + apply Permutation_refl.
    + eapply perm_trans; [apply perm_swap | apply perm_skip, IH].
Qed.

Lemma insertion_sort_desc_perm (df : list ScoredItem) :
  Permutation df (insertion_sort_desc ties_after df).
Proof.
  induction df as [|x df IH]; simpl.
  - apply perm_nil.
  - eapply perm_trans; [apply perm_skip, IH | apply insert_desc_perm].
Qed.

Lemma insert_desc_sorted (x : ScoredItem) (l : list ScoredItem) :
  StronglySorted (fun a b => match_score b <= match_score a) l ->
  StronglySorted (fun a b => match_score b <= match_score a)
                 (insert_desc ties_after x l).
Proof.
  induction 1 as [|y l Hl IH Hy]; simpl.
  - constructor; constructor.
  - destruct (if ties_after then _ else _) eqn:E.
    + assert (Hxy : match_score y <= match_score x)
        by (destruct ties_after; lia).
      constructor; [constructor; assumption|].
      constructor; [assumption|].
      rewrite Forall_forall in *. intros z Hz. specialize (Hy z Hz). lia.
    + assert (Hyx : match_score x <= match_score y)
        by (destruct ties_after; lia).
      constructor; [assumption|].
      rewrite Forall_forall in *. intros z Hz.
      apply (Permutation_in z (Permutation_sym (insert_desc_perm x l))) in Hz.
      destruct Hz as [<-|Hz]; [assumption | apply Hy, Hz].
Qed.

Lemma insertion_sort_desc_sorted (df : list ScoredItem) :
  StronglySorted (fun a b => match_score b <= match_score a)
                 (insertion_sort_desc ties_after df).
Proof.
  induction df as [|x df IH]; simpl.
  - constructor.
  - apply insert_desc_sorted, IH.
Qed.
End InsertionSort.

(** A sort that keeps rows of equal score in their input order. *)
Definition stable_sort : SortValues :=
  {| sort_values_desc := insertion_sort_desc false;
     sort_values_perm := insertion_sort_desc_perm false;
     sort_values_sorted := insertion_sort_desc_sorted false |}.

(** A sort that meets the same interface and reverses rows of equal score. *)
Definition reversing_sort : SortValues :=
  {| sort_values_desc := insertion_sort_desc true;
     sort_values_perm := insertion_sort_desc_perm true;
     sort_values_sorted := insertion_sort_desc_sorted true |}.

Lemma insert_nat_perm (x : nat) (l : list nat) :
  Permutation (x :: l) (insert_nat x l).
Proof.
  induction l as [|y l IH]; simpl.
  - apply Permutation_refl.
  - destruct (Nat.leb x y).
    + apply Permutation_refl.
    + eapply perm_trans; [apply perm_swap | apply perm_skip, IH].
Qed.

Lemma sort_nat_perm (l : list nat) : Permutation l (sort_nat l).
Proof.
  induction l as [|x l IH]; simpl.
  - apply perm_nil.
  - eapply perm_trans; [apply perm_skip, IH | apply insert_nat_perm].
Qed.

Lemma rearranges_perm (indexer : list nat) (n : nat) :
  rearranges indexer n = true -> Permutation (seq 0 n) indexer.
Proof.
  unfold rearranges. destruct (list_eq_dec Nat.eq_dec _ _) as [E|]; [|discriminate].
  intros _. rewrite <- E. apply Permutation_sym, sort_nat_perm.
Qed.

(** Taking the rows in their own order gives the frame back. *)
Lemma take_rows_seq {A : Type} (l2 : list A) :
  forall l1 : list A,
    take_rows (l1 ++ l2) (seq (List.length l1) (List.length l2)) = l2.
Proof.
  induction l2 as [|x l2 IH]; intro l1; simpl.
  - reflexivity.
  - rewrite nth_error_app2, Nat.sub_diag by apply le_n. simpl.
    f_equal.
    specialize (IH (l1 ++ [x])%list).
    rewrite <- app_assoc, length_app in IH. simpl in IH.
    rewrite Nat.add_1_r in IH. exact IH.
Qed.

Lemma take_rows_perm {A : Type} (df : list A) (indexer : list nat) :
  Permutation (seq 0 (List.length df)) indexer ->
  Permutation df (take_rows df indexer).
Proof.
  intro Hp.
  rewrite <- (take_rows_seq df []) at 1.
  unfold take_rows. cbn [List.length app].
  apply Permutation_flat_map, Hp.
Qed.

Lemma descending_sorted (l : list ScoredItem) :
  descending l = true ->
  StronglySorted (fun a b => match_score b <= match_score a) l.
Proof.
  intro Hd. apply Sorted_StronglySorted.
  - intros a b c Hab Hbc. lia.
  - induction l as [|x l IH]; [constructor|].
    destruct l as [|y l].
    + constructor; constructor.
    + cbn [descending] in Hd. apply andb_true_iff in Hd. destruct Hd as [Hxy Hd].
      constructor; [apply IH, Hd|].
      constructor. apply Z.leb_le, Hxy.
Qed.

Lemma numpy_sort_values_perm (df : list ScoredItem) :
  Permutation df (numpy_sort_values df).
Proof.
  unfold numpy_sort_values.
  destruct (nargsort_desc (map match_score df)) as [indexer|];
    [|apply insertion_sort_desc_perm].
  cbv zeta.
  destruct (rearranges indexer (List.length df)) eqn:Hr; cbn [andb];
    [|apply insertion_sort_desc_perm].
  destruct (descending (take_rows df indexer)); [|apply insertion_sort_desc_perm].
  apply take_rows_perm, rearranges_perm, Hr.
Qed.

Lemma numpy_sort_values_sorted (df : list ScoredItem) :
  StronglySorted (fun a b => match_score b <= match_score a) (numpy_sort_values df).
Proof.
  unfold numpy_sort_values.
  destruct (nargsort_desc (map match_score df)) as [indexer|];
    [|apply insertion_sort_desc_sorted].
  cbv zeta.
  destruct (rearranges indexer (List.length df)); cbn [andb];
    [|apply insertion_sort_desc_sorted].
  destruct (descending (take_rows df indexer)) eqn:Hd;
    [|apply insertion_sort_desc_sorted].
  apply descending_sorted, Hd.
Qed.

(** [sort_values] over NumPy's portable quicksort, the routine NumPy runs
    where it dispatches no vectorised one for the platform. *)
Definition portable_quicksort : SortValues :=
  {| sort_values_desc := numpy_sort_values;
     sort_values_perm := numpy_sort_values_perm;
     sort_values_sorted := numpy_sort_values_sorted |}.

(* ================================================================== *)
(** * What the two rankings compute *)
(* ================================================================== *)

Lemma add_column_map (g col : Item.t -> Z) (l : list Item.t) :
  add_column col (map (fun r => (r, g r)) l)
  = map (fun r => (r, wrap_int64 (g r + col r))) l.
Proof. unfold add_column. rewrite map_map. reflexivity. Qed.

Lemma keyword_step_map norm (g : Item.t -> Z) (l : list Item.t) (kw : string) :
  keyword_step norm (map (fun r => (r, g r)) l) kw
  = map (fun r => (r, keyword_row_step norm r (g r) kw)) l.
Proof.
  unfold keyword_step. cbv zeta. rewrite !add_column_map. reflexivity.
Qed.

(** The loop over the keywords makes, on every row, the additions of every
    keyword in turn. *)
Lemma keyword_loop_map norm (kws : list string) :
  forall (g : Item.t -> Z) (l : list Item.t),
    fold_left (keyword_step norm) kws (map (fun r => (r, g r)) l)
    = map (fun r => (r, fold_left (keyword_row_step norm r) kws (g r))) l.
Proof.
  induction kws as [|kw kws IH]; intros g l; simpl.
  - reflexivity.
  - rewrite keyword_step_map, IH. reflexivity.
Qed.

Lemma mood_column_map (mood : option string) (g : Item.t -> Z) (l : list Item.t) :
  match mood with
  | Some m =>
      if Py.truthy_str mood
      then add_column (fun r => if Py.mem m (Item.mood_tags r) then 1 else 0)
                      (map (fun r => (r, g r)) l)
      else map (fun r => (r, g r)) l
  | None => map (fun r => (r, g r)) l
  end = map (fun r => (r, mood_row_step mood r (g r))) l.
Proof.
  unfold mood_row_step. destruct mood as [m|]; [|reflexivity].
  destruct (Py.truthy_str (Some m)); [|reflexivity].
  rewrite add_column_map. reflexivity.
Qed.

Lemma recommend_products_query (budget : option Q) (category : option string) :
  match category with
  | Some c =>
      if Py.truthy_str category
      then (match budget with
            | Some b => if Py.truthy_float budget
                        then ([] ++ [Sqlite.PriceLe b])%list else []
            | None => []
            end ++ [Sqlite.CategoryLike ("%" ++ c ++ "%")%string])%list
      else match budget with
           | Some b => if Py.truthy_float budget
                       then ([] ++ [Sqlite.PriceLe b])%list else []
           | None => []
           end
  | None => match budget with
            | Some b => if Py.truthy_float budget
                        then ([] ++ [Sqlite.PriceLe b])%list else []
            | None => []
            end
  end = db_query budget category.
Proof.
  unfold db_query.
  destruct budget as [b|]; destruct category as [[|a c]|];
    cbn [Py.truthy_float Py.truthy_str or_default];
    try destruct (negb (Qeq_bool b 0)); reflexivity.
Qed.

(** [recommend_products] is: select, score, sort, keep ten. *)
Lemma recommend_products_stages `{SortValues} (tbl : list Item.t)
      (mood : option string) (budget : option Q)
      (category : option string) (keywords : option (list string)) :
  recommend_products tbl mood budget category keywords
  = head10 (sort_values_desc
              (map (fun r => (r, db_match_score mood keywords r))
                   (Sqlite.select_products (db_query budget category) tbl))).
Proof.
  unfold recommend_products. cbv zeta.
  rewrite (recommend_products_query budget category).
  destruct (Sqlite.select_products (db_query budget category) tbl) as [|r0 df] eqn:E.
  - simpl map.
    match goal with
    | |- _ = head10 ?e =>
        assert (Hnil : e = []) by (apply Permutation_nil, sort_values_perm);
        rewrite Hnil
    end.
    reflexivity.
  - cbv zeta. f_equal. f_equal.
    rewrite (mood_column_map mood (fun r => Item.popularity_score r) (r0 :: df)).
    unfold db_match_score.
    destruct keywords as [kws|].
    + destruct kws as [|kw kws]; cbn [Py.truthy_list or_default].
      * reflexivity.
      * change (fun (df0 : list ScoredItem) (kw0 : string) => _)
          with (keyword_step Py.lower).
        rewrite keyword_loop_map. reflexivity.
    + reflexivity.
Qed.

Lemma category_column_map (category : option string) (g : Item.t -> Z)
      (l : list Item.t) :
  match category with
  | Some c =>
      if Py.truthy_str category
      then add_column (fun r => Py.int_of_bool
             (Py.contains (Py.lower c) (Py.lower (Item.category r))))
             (map (fun r => (r, g r)) l)
      else map (fun r => (r, g r)) l
  | None => map (fun r => (r, g r)) l
  end = map (fun r => (r, category_row_step category r (g r))) l.
Proof.
  unfold category_row_step. destruct category as [c|]; [|reflexivity].
  destruct (Py.truthy_str (Some c)); [|reflexivity].
  rewrite add_column_map. reflexivity.
Qed.

(** The fallback ranking is: score every row of the frame, sort, keep ten. *)
Lemma fallback_recommend_stages `{SortValues} (df : list Item.t)
      (mood category : option string) (keywords : list string) :
  fallback_recommend df mood category keywords
  = head10 (sort_values_desc
              (map (fun r => (r, fallback_match_score mood category keywords r)) df)).
Proof.
  unfold fallback_recommend. cbv zeta. f_equal. f_equal.
  rewrite (mood_column_map mood (fun r => Item.popularity_score r) df).
  rewrite (category_column_map category
             (fun r => mood_row_step mood r (Item.popularity_score r)) df).
  change (fun (df0 : list ScoredItem) (kw0 : string) => _)
    with (keyword_step (fun kw => kw)).
  rewrite keyword_loop_map. reflexivity.
Qed.

(** Every bonus is 0 or 1, and a keyword earns between 0 and 3. *)
Lemma int_of_bool_range (b : bool) : 0 <= Py.int_of_bool b <= 1.
Proof. destruct b; simpl; lia. Qed.

Lemma mood_bonus_range (mood : option string) (r : Item.t) :
  0 <= mood_bonus mood r <= 1.
Proof.
  unfold mood_bonus. destruct mood as [m|]; [|lia].
  destruct (_ && _); lia.
Qed.


Lemma keyword_hits_range (kw : string) (r : Item.t) : 0 <= keyword_hits kw r <= 3.
Proof.
  unfold keyword_hits.
  pose proof (int_of_bool_range (Py.contains kw (Py.lower (Item.name r)))).
  pose proof (int_of_bool_range (Py.contains kw (Py.lower (Item.description r)))).
  pose proof (int_of_bool_range (any_ingredient kw (Item.ingredients r))).
  lia.
Qed.

Lemma keywords_bonus_nonneg norm (kws : list string) (r : Item.t) :
  0 <= keywords_bonus norm kws r.
Proof.
  induction kws as [|kw kws IH]; simpl; [lia|].
  pose proof (keyword_hits_range (norm kw) r). lia.
Qed.

Lemma In_head10 {A : Type} (x : A) (l : list A) : In x (head10 l) -> In x l.
Proof.
  unfold head10. generalize 10%nat. intro n. revert l.
  induction n as [|n IH]; intros [|y l]; simpl; try tauto.
  intros [->|Hin]; [left; reflexivity | right; apply IH, Hin].
Qed.

(** A row of a ranking comes from the frame that was sorted. *)
Lemma In_ranked `{SortValues} (x : ScoredItem) (df : list ScoredItem) :
  In x (head10 (sort_values_desc df)) -> In x df.
Proof.
  intro Hin. apply In_head10 in Hin.
  exact (Permutation_in x (Permutation_sym (sort_values_perm df)) Hin).
Qed.

Lemma singleton_ranked `{SortValues} (x : ScoredItem) :
  head10 (sort_values_desc [x]) = [x].
Proof.
  rewrite (Permutation_length_1_inv (sort_values_perm [x])). reflexivity.
Qed.

(* ================================================================== *)
(** * Properties of the ranking *)
(* ================================================================== *)

(** ** Scores in the arithmetic of the column *)

Lemma wrap_int64_id (z : Z) : int64_min <= z <= int64_max -> wrap_int64 z = z.
Proof.
  unfold wrap_int64, int64_min, int64_max. intro Hz.
  rewrite Z.mod_small; lia.
Qed.

Lemma wrap_int64_range (z : Z) : int64_min <= wrap_int64 z <= int64_max.
Proof.
  unfold wrap_int64, int64_min, int64_max.
  pose proof (Z.mod_pos_bound (z + 2 ^ 63) (2 ^ 64) ltac:(lia)). lia.
Qed.

(** Reducing before an addition or after it gives the same column value. *)
Lemma wrap_int64_add (z c : Z) : wrap_int64 (wrap_int64 z + c) = wrap_int64 (z + c).
Proof.
  unfold wrap_int64. f_equal.
  replace ((z + 2 ^ 63) mod 2 ^ 64 - 2 ^ 63 + c + 2 ^ 63)
    with ((z + 2 ^ 63) mod 2 ^ 64 + c) by ring.
  rewrite Zplus_mod_idemp_l. f_equal. ring.
Qed.

Lemma mood_row_step_wrap (mood : option string) (r : Item.t) (s : Z) :
  mood_row_step mood r (wrap_int64 s) = wrap_int64 (s + mood_bonus mood r).
Proof.
  unfold mood_row_step, mood_bonus. destruct mood as [m|].
  - destruct (Py.truthy_str (Some m)); cbn [andb].
    + apply wrap_int64_add.
    + f_equal. ring.
  - f_equal. ring.
Qed.


Lemma keyword_row_step_wrap norm (r : Item.t) (s : Z) (kw : string) :
  keyword_row_step norm r (wrap_int64 s) kw
  = wrap_int64 (s + keyword_hits (norm kw) r).
Proof.
  unfold keyword_row_step, keyword_hits. cbv zeta.
  rewrite (wrap_int64_add s), (wrap_int64_add (s + _)), (wrap_int64_add (s + _ + _)).
  apply (f_equal wrap_int64). ring.
Qed.

Lemma keyword_rows_wrap norm (r : Item.t) (kws : list string) :
  forall s : Z,
    fold_left (keyword_row_step norm r) kws (wrap_int64 s)
    = wrap_int64 (s + keywords_bonus norm kws r).
Proof.
  induction kws as [|kw kws IH]; intro s; simpl.
  - f_equal. ring.
  - rewrite keyword_row_step_wrap, IH. apply (f_equal wrap_int64). ring.
Qed.

(** On a popularity that is an [int64] value, the score is the sum of the
    popularity and the bonuses, reduced into the range of the column. *)
Lemma db_match_score_wrap (mood : option string) (keywords : option (list string))
      (r : Item.t) :
  int64_min <= Item.popularity_score r <= int64_max ->
  db_match_score mood keywords r = wrap_int64 (db_match_sum mood keywords r).
Proof.
  intro Hp. unfold db_match_score, db_match_sum.
  rewrite <- (wrap_int64_id (Item.popularity_score r) Hp) at 1.
  rewrite mood_row_step_wrap, keyword_rows_wrap. reflexivity.
Qed.


Lemma keywords_bonus_le norm (kws : list string) (r : Item.t) :
  keywords_bonus norm kws r <= 3 * Z.of_nat (List.length kws).
Proof.
  induction kws as [|kw kws IH]; simpl keywords_bonus; cbn [List.length]; [lia|].
  pose proof (keyword_hits_range (norm kw) r). lia.
Qed.

(** [room] is what the bonuses can add at most: the popularity is an
    [int64] value, and stays one with [room] added. *)
Definition fits_int64 (room : Z) (r : Item.t) : Prop :=
  int64_min <= Item.popularity_score r
  /\ Item.popularity_score r + room <= int64_max.

Lemma db_match_score_sum (mood : option string) (keywords : option (list string))
      (r : Item.t) :
  fits_int64 (1 + 3 * Z.of_nat (List.length (or_default [] keywords))) r ->
  db_match_score mood keywords r = db_match_sum mood keywords r.
Proof.
  intros [Hlo Hhi].
  pose proof (mood_bonus_range mood r).
  pose proof (keywords_bonus_nonneg Py.lower (or_default [] keywords) r).
  pose proof (keywords_bonus_le Py.lower (or_default [] keywords) r).
  rewrite db_match_score_wrap by lia.
  apply wrap_int64_id. unfold db_match_sum. lia.
Qed.






(** What [recommend_products] computes for a surviving row: the popularity,
    the mood bonus and the keyword hits, and nothing for the category. *)
Lemma recommend_products_scores `{SortValues} (tbl : list Item.t)
      (mood : option string) (budget : option Q) (category : option string)
      (keywords : option (list string)) :
  Forall (fun x => match_score x = db_match_score mood keywords (item_of x))
         (recommend_products tbl mood budget category keywords).
Proof.
  rewrite recommend_products_stages. apply Forall_forall. intros x Hin.
  apply In_ranked, in_map_iff in Hin. destruct Hin as [r [<- _]]. reflexivity.
Qed.

(** C1. On the input "burger" and a catalog holding the Dragon Burger, the
    database ranking scores the burger 80 + 2 (the keyword occurs in its
    name and in its description) and adds nothing for the detected category
    Burgers, whereas the scoring rule of the specification gives 80 + 1 + 2,
    which is also the score of the fallback ranking. *)
Theorem recommend_products_omits_category_bonus `{SortValues} :
  let intent := extract_intent "burger" in
  Intent.category intent = Some "Burgers"
  /\ recommend_products [dragon_burger] (Intent.mood intent) (Intent.budget intent)
       (Intent.category intent) (Some (Intent.keywords intent))
     = [(dragon_burger, 82)]
  /\ spec_match_score (Intent.mood intent) (Intent.category intent)
       (Intent.keywords intent) dragon_burger = 83
  /\ fallback_recommend [dragon_burger] (Intent.mood intent)
       (Intent.category intent) (Intent.keywords intent)
     = [(dragon_burger, 83)].
Proof.
  cbv zeta. split; [reflexivity|]. split; [|split].
  - rewrite recommend_products_stages.
    match goal with
    | |- head10 (sort_values_desc ?df) = _ =>
        replace df with [(dragon_burger, 82)] by (vm_compute; reflexivity)
    end.
    apply singleton_ranked.
  - vm_compute. reflexivity.
  - rewrite fallback_recommend_stages.
    match goal with
    | |- head10 (sort_values_desc ?df) = _ =>
        replace df with [(dragon_burger, 83)] by (vm_compute; reflexivity)
    end.
    apply singleton_ranked.
Qed.

(** C4. On the input "burger under $0" the extracted budget is 0, the
    price condition is left out of the query because a zero budget counts as
    absent, and the Dragon Burger, priced 9.99, is returned. *)
Theorem recommend_products_zero_budget_unfiltered `{SortValues} :
  let intent := extract_intent "burger under $0" in
  Intent.budget intent = Some 0%Q
  /\ db_query (Intent.budget intent) (Intent.category intent)
     = [Sqlite.CategoryLike "%Burgers%"]
  /\ recommend_products [dragon_burger] (Intent.mood intent) (Intent.budget intent)
       (Intent.category intent) (Some (Intent.keywords intent))
     = [(dragon_burger, 82)]
  /\ Item.price dragon_burger = Some (999 # 100)
  /\ Qle_bool (999 # 100) 0 = false.
Proof.
  cbv zeta. split; [reflexivity|]. split; [reflexivity|]. split; [|split; reflexivity].
  rewrite recommend_products_stages.
  match goal with
  | |- head10 (sort_values_desc ?df) = _ =>
      replace df with [(dragon_burger, 82)] by (vm_compute; reflexivity)
  end.
  apply singleton_ranked.
Qed.

Lemma StronglySorted_app_inv {A : Type} (R : A -> A -> Prop) (l1 l2 : list A) :
  StronglySorted R (l1 ++ l2) ->
  StronglySorted R l1
  /\ Forall (fun y => Forall (fun x => R x y) l1) l2.
Proof.
  induction l1 as [|a l1 IH]; simpl; intro Hs.
  - split; [constructor|]. apply Forall_forall. intros; constructor.
  - apply StronglySorted_inv in Hs. destruct Hs as [Hs Ha].
    destruct (IH Hs) as [Hl1 Hcross].
    apply Forall_app in Ha. destruct Ha as [Ha1 Ha2].
    split; [constructor; assumption|].
    rewrite Forall_forall in *. intros y Hy.
    constructor; [apply Ha2, Hy | apply Hcross, Hy].
Qed.



(** NumPy's portable quicksort sorts ranges of up to seventeen rows by
    insertion, which keeps tied rows in table order; on the twenty tied rows
    of the sample listing it partitions first, and returns FF001, FF002 and
    then FF019 down to FF012. *)
Example portable_quicksort_two_tied_rows :
  @recommend_products portable_quicksort [dragon_burger; honey_tenders]
                      None None None None
  = [(dragon_burger, 80); (honey_tenders, 80)].
Proof. vm_compute. reflexivity. Qed.

Example portable_quicksort_twenty_tied_rows :
  map (fun x => Item.product_id (item_of x))
      (@recommend_products portable_quicksort tied_catalog None None None None)
  = ["FF001"; "FF002"; "FF019"; "FF018"; "FF017";
     "FF016"; "FF015"; "FF014"; "FF013"; "FF012"].
Proof. vm_compute. reflexivity. Qed.

(** In a ranking no row is followed by a row of higher score. *)
Lemma higher_score_first `{SortValues} (x y : ScoredItem) (l1 l2 : list ScoredItem) :
  match_score y < match_score x ->
  forall df, head10 (sort_values_desc df) = (l1 ++ y :: l2)%list -> ~ In x l2.
Proof.
  intros Hlt df Heq Hin.
  pose proof (sort_values_sorted df) as Hs.
  rewrite <- (firstn_skipn 10 (sort_values_desc df)) in Hs.
  apply StronglySorted_app_inv in Hs. destruct Hs as [Hfirst _].
  change (firstn 10 (sort_values_desc df)) with (head10 (sort_values_desc df)) in Hfirst.
  rewrite Heq in Hfirst.
  assert (Htail : StronglySorted (fun a b => match_score b <= match_score a) (y :: l2)).
  { clear -Hfirst. induction l1 as [|a l1 IH]; simpl in Hfirst; [exact Hfirst|].
    apply StronglySorted_inv in Hfirst. apply IH, Hfirst. }
  apply StronglySorted_inv in Htail. destruct Htail as [_ Hall].
  rewrite Forall_forall in Hall. specialize (Hall x Hin). lia.
Qed.

(** Two rows scoring 90 and 70 are returned with the 90 first, whichever
    comes first in the table and whatever the sorting routine. *)
Lemma ninety_before_seventy `{SortValues} (a b : Item.t) :
  Item.popularity_score a = 90 -> Item.popularity_score b = 70 ->
  recommend_products [a; b] None None None None = [(a, 90); (b, 70)]
  /\ recommend_products [b; a] None None None None = [(a, 90); (b, 70)].
Proof.
  intros Ha Hb.
  assert (Hgen : forall df, Permutation df [(a, 90); (b, 70)] ->
                            head10 (sort_values_desc df) = [(a, 90); (b, 70)]).
  { intros df Hp.
    pose proof (sort_values_sorted df) as Hs.
    pose proof (Permutation_trans (Permutation_sym Hp) (sort_values_perm df)) as Hq.
    apply Permutation_length_2_inv in Hq. destruct Hq as [Hq|Hq]; rewrite Hq in *.
    - reflexivity.
    - exfalso. apply StronglySorted_inv in Hs. destruct Hs as [_ Hall].
      apply Forall_inv in Hall. unfold match_score in Hall. simpl in Hall. lia. }
  split; rewrite recommend_products_stages.
  - apply Hgen. cbn. unfold db_match_score. cbn. rewrite Ha, Hb. apply Permutation_refl.
  - apply Hgen. cbn. unfold db_match_score. cbn. rewrite Ha, Hb. apply perm_swap.
Qed.

(* ================================================================== *)
(** * Properties of the query *)
(* ================================================================== *)

Lemma like_percent_unfold (p s : string) :
  Sqlite.like (String "%" p) s
  = Sqlite.like p s
    || match s with
       | EmptyString => false
       | String _ s' => Sqlite.like (String "%" p) s'
       end.
Proof. destruct s; reflexivity. Qed.

Lemma like_percent_all (s : string) : Sqlite.like "%" s = true.
Proof.
  induction s as [|a s IH]; rewrite like_percent_unfold.
  - reflexivity.
  - rewrite IH. apply orb_true_r.
Qed.

(** A wildcard-free text followed by [%] matches the strings that start
    with it, up to case. *)
Lemma like_prefix (c : string) :
  no_wildcard c = true ->
  forall s, Sqlite.like (c ++ "%") s = Py.startswith (Py.lower c) (Py.lower s).
Proof.
  induction c as [|a c IH]; intros Hc s.
  - simpl. apply like_percent_all.
  - simpl in Hc. apply andb_true_iff in Hc. destruct Hc as [Hc Hc'].
    apply andb_true_iff in Hc. destruct Hc as [Hp Hu].
    apply negb_true_iff in Hp. apply negb_true_iff in Hu.
    change ((String a c ++ "%")%string) with (String a (c ++ "%")).
    cbn [Sqlite.like]. rewrite Hp, Hu.
    destruct s as [|d s]; [reflexivity|].
    cbn [Py.lower Py.startswith]. unfold Sqlite.eq_nocase.
    rewrite (IH Hc' s). reflexivity.
Qed.

(** [category LIKE '%c%'] is the case-insensitive substring test when [c]
    has no wildcard. *)
Lemma like_contains (c : string) :
  no_wildcard c = true ->
  forall s, Sqlite.like ("%" ++ c ++ "%") s = Py.contains (Py.lower c) (Py.lower s).
Proof.
  intros Hc s.
  change (("%" ++ c ++ "%")%string) with (String "%" (c ++ "%")).
  induction s as [|d s IH]; rewrite like_percent_unfold, (like_prefix c Hc).
  - cbn [Py.lower Py.contains]. reflexivity.
  - cbn [Py.lower Py.contains]. rewrite IH. reflexivity.
Qed.

(** The rows that are scored are exactly the rows of the table that satisfy
    every condition of the query. *)
Lemma select_products_spec (query : list Sqlite.cond) (tbl : list Item.t) (r : Item.t) :
  In r (Sqlite.select_products query tbl)
  <-> In r tbl /\ forall c, In c query -> Sqlite.holds c r = true.
Proof.
  unfold Sqlite.select_products. rewrite filter_In, forallb_forall. reflexivity.
Qed.

(** With a budget other than zero, every returned row has a price, and the
    price does not exceed the budget. *)
Lemma recommend_products_within_budget `{SortValues} (tbl : list Item.t)
      (mood : option string) (b : Q) (category : option string)
      (keywords : option (list string)) :
  ~ (b == 0)%Q ->
  Forall (fun x => exists p, Item.price (item_of x) = Some p /\ (p <= b)%Q)
         (recommend_products tbl mood (Some b) category keywords).
Proof.
  intro Hb. rewrite recommend_products_stages. apply Forall_forall. intros x Hin.
  apply In_ranked, in_map_iff in Hin. destruct Hin as [r [<- Hr]].
  apply select_products_spec in Hr. destruct Hr as [_ Hq].
  assert (Hin : In (Sqlite.PriceLe b) (db_query (Some b) category)).
  { unfold db_query. cbn [Py.truthy_float or_default].
    destruct (Qeq_bool b 0) eqn:E; [apply Qeq_bool_iff in E; contradiction|].
    cbn. left. reflexivity. }
  specialize (Hq _ Hin). cbn in Hq. unfold item_of. cbn.
  destruct (Item.price r) as [p|]; [|discriminate].
  exists p. split; [reflexivity | apply Qle_bool_iff, Hq].
Qed.

(** With a non-empty category free of wildcards, the item category of every
    returned row contains it, up to case. *)
Lemma recommend_products_within_category `{SortValues} (tbl : list Item.t)
      (mood : option string) (budget : option Q) (a : ascii) (c : string)
      (keywords : option (list string)) :
  no_wildcard (String a c) = true ->
  Forall (fun x => Py.contains (Py.lower (String a c))
                               (Py.lower (Item.category (item_of x))) = true)
         (recommend_products tbl mood budget (Some (String a c)) keywords).
Proof.
  intro Hc. rewrite recommend_products_stages. apply Forall_forall. intros x Hin.
  apply In_ranked, in_map_iff in Hin. destruct Hin as [r [<- Hr]].
  apply select_products_spec in Hr. destruct Hr as [_ Hq].
  assert (Hin : In (Sqlite.CategoryLike ("%" ++ String a c ++ "%"))
                   (db_query budget (Some (String a c)))).
  { unfold db_query. apply in_or_app. right. cbn. left. reflexivity. }
  specialize (Hq _ Hin). cbn [Sqlite.holds] in Hq.
  rewrite (like_contains _ Hc) in Hq. exact Hq.
Qed.

(* ================================================================== *)
(** * Statements sent to the storage layer *)
(* ================================================================== *)

Lemma db_step_ok effect (w w' : Sqlite.World) (u : unit) :
  db_step effect w = (w', Ok u) ->
  Sqlite.conn w' = effect (Sqlite.conn w) /\ Sqlite.stdout w' = Sqlite.stdout w.
Proof.
  unfold db_step. destruct (Sqlite.faults w) as [|[msg|] fs]; intro E;
    inversion E; subst; split; reflexivity.
Qed.

Lemma db_step_raised effect (w w' : Sqlite.World) (e : string) :
  db_step effect w = (w', Raised e) ->
  Sqlite.conn w' = Sqlite.conn w /\ Sqlite.stdout w' = Sqlite.stdout w.
Proof.
  unfold db_step. destruct (Sqlite.faults w) as [|[msg|] fs]; intro E;
    inversion E; subst; split; reflexivity.
Qed.

(** A statement raises exactly when a failure is due for it. *)
Lemma db_step_fault effect (w : Sqlite.World) :
  match next_fault w with
  | Some msg => exists w', db_step effect w = (w', Raised msg)
  | None => exists w', db_step effect w = (w', Ok tt)
  end.
Proof.
  unfold next_fault, db_step. destruct (Sqlite.faults w) as [|[msg|] fs];
    eexists; reflexivity.
Qed.

Lemma bind_ok {A B : Type} (m : M A) (f : A -> M B) (w w' : Sqlite.World) (a : A) :
  m w = (w', Ok a) -> bind m f w = f a w'.
Proof. unfold bind. intros ->. reflexivity. Qed.

Lemma bind_raised {A B : Type} (m : M A) (f : A -> M B) (w w' : Sqlite.World)
      (e : string) :
  m w = (w', Raised e) -> bind m f w = (w', Raised e).
Proof. unfold bind. intros ->. reflexivity. Qed.

Lemma try_ok {A : Type} (m : M A) (h : string -> M A) (w w' : Sqlite.World) (a : A) :
  m w = (w', Ok a) -> try_except m h w = (w', Ok a).
Proof. unfold try_except. intros ->. reflexivity. Qed.

Lemma try_raised {A : Type} (m : M A) (h : string -> M A) (w w' : Sqlite.World)
      (e : string) :
  m w = (w', Raised e) -> try_except m h w = h e w'.
Proof. unfold try_except. intros ->. reflexivity. Qed.

Lemma insert_or_replace_nonempty (row : Item.t) (tbl : list Item.t) :
  Sqlite.insert_or_replace row tbl <> [].
Proof.
  unfold Sqlite.insert_or_replace. intro E.
  apply app_eq_nil in E. destruct E as [_ E]. discriminate.
Qed.

(** A batch that went through left the committed tables alone and, unless
    it was empty, a non-empty products table behind. *)
Lemma executemany_ok (batch : list Item.t) :
  forall (w w' : Sqlite.World) (u : unit),
    executemany batch w = (w', Ok u) ->
    Sqlite.stdout w' = Sqlite.stdout w
    /\ Sqlite.durable (Sqlite.conn w') = Sqlite.durable (Sqlite.conn w)
    /\ (batch = [] -> Sqlite.conn w' = Sqlite.conn w)
    /\ (batch <> [] \/ Sqlite.products (Sqlite.working (Sqlite.conn w)) <> [] ->
        Sqlite.products (Sqlite.working (Sqlite.conn w')) <> []).
Proof.
  induction batch as [|row rest IH]; intros w w' u E.
  - inversion E; subst. repeat split; try reflexivity.
    intros [Hb|Hp]; [congruence | exact Hp].
  - cbn [executemany] in E. unfold bind in E.
    destruct (db_step (Sqlite.do_insert_product row) w) as [w1 [[]|e]] eqn:E1;
      [|discriminate].
    apply db_step_ok in E1. destruct E1 as [Hc1 Ho1].
    apply IH in E. destruct E as [Ho [Hd [_ Hne]]].
    split; [congruence|]. split; [rewrite Hd, Hc1; reflexivity|].
    split; [discriminate|].
    intros _. apply Hne. right. rewrite Hc1. cbn. apply insert_or_replace_nonempty.
Qed.

(** The loop over the batches, when it runs to its end: every row is
    counted, the last batch is committed, and a batch with a row in it
    leaves a non-empty table behind. *)
Lemma insert_batches_ok (bs : list (list Item.t)) :
  forall (acc : Z) (w w' : Sqlite.World) (n : Z),
    insert_batches bs acc w = (w', Ok n) ->
    n = acc + Z.of_nat (List.length (List.concat bs))
    /\ Sqlite.stdout w' = Sqlite.stdout w
    /\ (bs = [] -> Sqlite.conn w' = Sqlite.conn w)
    /\ (bs <> [] ->
        Sqlite.durable (Sqlite.conn w') = Sqlite.working (Sqlite.conn w'))
    /\ (Exists (fun b => b <> []) bs
        \/ Sqlite.products (Sqlite.working (Sqlite.conn w)) <> [] ->
        Sqlite.products (Sqlite.working (Sqlite.conn w')) <> []).
Proof.
  induction bs as [|batch rest IH]; intros acc w w' n E.
  - inversion E; subst. cbn. repeat split; try lia; try reflexivity.
    + intro Hne. congruence.
    + intros [Hex|Hp]; [inversion Hex | exact Hp].
  - cbn [insert_batches] in E. unfold bind in E.
    destruct (executemany batch w) as [w1 [[]|e]] eqn:E1; [|discriminate].
    destruct (db_step Sqlite.do_commit w1) as [w2 [[]|e]] eqn:E2; [|discriminate].
    apply executemany_ok in E1. destruct E1 as [Ho1 [Hd1 [_ Hne1]]].
    apply db_step_ok in E2. destruct E2 as [Hc2 Ho2].
    apply IH in E. destruct E as [Hn [Ho [Hnil [Hq Hne]]]].
    split.
    { rewrite Hn. cbn [List.concat]. rewrite length_app. lia. }
    split; [congruence|].
    split; [discriminate|].
    split.
    { intros _. destruct rest as [|b rest'].
      - rewrite (Hnil eq_refl), Hc2. reflexivity.
      - apply Hq. discriminate. }
    intros [Hex|Hp].
    + inversion Hex as [b l Hb|b l Hrest]; subst.
      * apply Hne. right. rewrite Hc2. cbn. apply Hne1. left. exact Hb.
      * apply Hne. left. exact Hrest.
    + apply Hne. right. rewrite Hc2. cbn. apply Hne1. right. exact Hp.
Qed.

(* ================================================================== *)
(** * Properties of the seeding *)
(* ================================================================== *)

Lemma slices_fuel_nonempty {A : Type} (n : nat) :
  (1 <= n)%nat ->
  forall (fuel : nat) (rows : list A),
    Forall (fun b => b <> []) (slices_fuel fuel n rows).
Proof.
  intros Hn fuel. induction fuel as [|fuel IH]; intros rows; simpl.
  - constructor.
  - destruct rows as [|x rows]; [constructor|].
    constructor; [|apply IH].
    destruct n as [|n]; [lia|]. simpl. discriminate.
Qed.

(** The fuel is enough: the slices, put end to end, are the rows. *)
Lemma slices_fuel_concat {A : Type} (n : nat) :
  (1 <= n)%nat ->
  forall (fuel : nat) (rows : list A),
    (List.length rows <= fuel)%nat ->
    List.concat (slices_fuel fuel n rows) = rows.
Proof.
  intros Hn fuel. induction fuel as [|fuel IH]; intros rows Hlen; simpl.
  - destruct rows; [reflexivity | simpl in Hlen; lia].
  - destruct rows as [|x rows]; [reflexivity|].
    cbn [List.concat]. rewrite IH.
    + apply firstn_skipn.
    + rewrite length_skipn. cbn [List.length] in Hlen |- *. lia.
Qed.

Lemma slices_concat {A : Type} (n : nat) (rows : list A) :
  (1 <= n)%nat -> List.concat (slices n rows) = rows.
Proof. intro Hn. apply slices_fuel_concat; [exact Hn | apply le_n]. Qed.

Lemma slices_nil_inv {A : Type} (n : nat) (rows : list A) :
  slices n rows = [] -> rows = [].
Proof. destruct rows; [reflexivity | discriminate]. Qed.

Lemma select_count_cases (w : Sqlite.World) :
  (exists w1,
      select_count w
      = (w1, Ok (Z.of_nat (List.length
                   (Sqlite.products (Sqlite.working (Sqlite.conn w))))))
      /\ Sqlite.conn w1 = Sqlite.conn w /\ Sqlite.stdout w1 = Sqlite.stdout w
      /\ next_fault w = None)
  \/ (exists w1 e,
         select_count w = (w1, Raised e)
         /\ Sqlite.conn w1 = Sqlite.conn w /\ Sqlite.stdout w1 = Sqlite.stdout w
         /\ next_fault w = Some e).
Proof.
  unfold select_count.
  pose proof (db_step_fault Sqlite.do_select w) as Hf.
  destruct (next_fault w) as [msg|]; destruct Hf as [w1 E].
  - right. exists w1, msg. rewrite (bind_raised _ _ _ _ _ E).
    apply db_step_raised in E. destruct E as [Hc Ho]. repeat split; assumption.
  - left. exists w1. rewrite (bind_ok _ _ _ _ _ E).
    apply db_step_ok in E. destruct E as [Hc Ho].
    unfold bind, get_working, ret. rewrite Hc. unfold Sqlite.do_select.
    repeat split; assumption.
Qed.

(** The handler of [populate_products_safe]: it tries a rollback, lets a
    failure of the rollback pass, and hands back the error result. *)
Lemma populate_handler (res : PopResult.t) (w : Sqlite.World) :
  exists w',
    bind (try_except (db_step Sqlite.do_rollback) (fun _ => ret tt))
         (fun _ => ret res) w = (w', Ok res)
    /\ Sqlite.stdout w' = Sqlite.stdout w
    /\ (Sqlite.conn w' = Sqlite.conn w
        \/ Sqlite.conn w' = Sqlite.do_rollback (Sqlite.conn w)).
Proof.
  unfold bind, try_except, ret.
  destruct (db_step Sqlite.do_rollback w) as [w1 [[]|e]] eqn:E.
  - apply db_step_ok in E. destruct E as [Hc Ho]. exists w1.
    split; [reflexivity|]. split; [exact Ho | right; exact Hc].
  - apply db_step_raised in E. destruct E as [Hc Ho]. exists w1.
    split; [reflexivity|]. split; [exact Ho | left; exact Hc].
Qed.

Lemma rollback_quiescent (c c' : Sqlite.Conn) :
  Sqlite.working c = Sqlite.durable c ->
  c' = c \/ c' = Sqlite.do_rollback c -> c' = c.
Proof.
  intros Hq [->| ->]; [reflexivity|].
  destruct c as [d wk]. unfold Sqlite.do_rollback. cbn in *. subst. reflexivity.
Qed.

Lemma count_positive {A : Type} (l : list A) :
  (Z.of_nat (List.length l) >? 0) = true <-> l <> [].
Proof.
  destruct l as [|a l]; split; intro Hx.
  - discriminate.
  - congruence.
  - discriminate.
  - apply Z.gtb_lt. cbn [List.length]. lia.
Qed.

Lemma batches_of_cases (rows : list Item.t) (batch_size : Z) (w : Sqlite.World) :
  (batch_size = 0 /\ exists e, batches_of rows batch_size w = (w, Raised e))
  \/ (batch_size < 0 /\ batches_of rows batch_size w = (w, Ok []))
  \/ (0 < batch_size
      /\ batches_of rows batch_size w = (w, Ok (slices (Z.to_nat batch_size) rows))).
Proof.
  unfold batches_of.
  destruct (batch_size =? 0) eqn:E0.
  - left. split; [lia | eexists; reflexivity].
  - destruct (batch_size <? 0) eqn:E1.
    + right. left. split; [lia | reflexivity].
    + right. right. split; [lia | reflexivity].
Qed.

(** The first call.  On a populated store it inserts nothing and leaves
    the connection as it was; whenever it reports success, no transaction
    is left open, and the store can only be empty afterwards if there was
    nothing to insert. *)
Lemma populate_first (products : list Product.t) (batch_size : Z) (w : Sqlite.World) :
  quiescent w ->
  exists w1 r1,
    populate_products_safe products batch_size w = (w1, Ok r1)
    /\ (Sqlite.products (Sqlite.working (Sqlite.conn w)) <> [] ->
        PopResult.inserted r1 = 0 /\ Sqlite.conn w1 = Sqlite.conn w
        /\ (next_fault w = None -> PopResult.success r1 = true))
    /\ (PopResult.success r1 = true ->
        quiescent w1
        /\ (Sqlite.products (Sqlite.working (Sqlite.conn w1)) = [] ->
            products = [] \/ batch_size < 0)).
Proof.
  intro Hq. unfold populate_products_safe. cbv zeta.
  destruct (select_count_cases w) as [[w0 [E [Hc [Ho Hf]]]]|[w0 [e [E [Hc [Ho Hf]]]]]].
  - (* the count is read *)
    destruct (Z.of_nat (List.length (Sqlite.products (Sqlite.working (Sqlite.conn w)))) >? 0)
      eqn:Hcount.
    + (* populated store *)
      eexists w0, _. split.
      { apply try_ok. rewrite (bind_ok _ _ _ _ _ E). rewrite Hcount. reflexivity. }
      cbn. split.
      * intros _. repeat split; assumption.
      * intros _. split; [unfold quiescent; rewrite Hc; exact Hq|].
        intro Hnil. apply count_positive in Hcount. rewrite Hc in Hnil. contradiction.
    + (* empty store *)
      assert (Hempty : Sqlite.products (Sqlite.working (Sqlite.conn w)) = []).
      { destruct (Sqlite.products (Sqlite.working (Sqlite.conn w))) as [|x l] eqn:Hp;
          [reflexivity|].
        assert (Hpos : (Z.of_nat (List.length (x :: l)) >? 0) = true)
          by (apply count_positive; discriminate).
        congruence. }
      destruct (batches_of_cases (map make_row products) batch_size w0)
        as [[Hb [e Eb]]|[[Hb Eb]|[Hb Eb]]].
      * (* zero step: range raises *)
        destruct (populate_handler
                    {| PopResult.success := false; PopResult.inserted := 0;
                       PopResult.error := Some e |} w0) as [w1 [Eh [_ Hc1]]].
        exists w1, {| PopResult.success := false; PopResult.inserted := 0;
                      PopResult.error := Some e |}.
        split.
        { erewrite try_raised; [exact Eh|].
          rewrite (bind_ok _ _ _ _ _ E). rewrite Hcount.
          apply bind_raised. exact Eb. }
        cbn. split; [intro Hne; contradiction | discriminate].
      * (* negative step: no batch *)
        eexists w0, _. split.
        { apply try_ok. rewrite (bind_ok _ _ _ _ _ E). rewrite Hcount.
          rewrite (bind_ok _ _ _ _ _ Eb). reflexivity. }
        cbn. split; [intro Hne; contradiction|].
        intros _. split; [unfold quiescent; rewrite Hc; exact Hq|].
        intros _. right. exact Hb.
      * (* the batches are inserted *)
        destruct (insert_batches (slices (Z.to_nat batch_size) (map make_row products)) 0 w0)
          as [w1 [n|e]] eqn:Ei.
        -- eexists w1, _. split.
           { apply try_ok. rewrite (bind_ok _ _ _ _ _ E). rewrite Hcount.
             rewrite (bind_ok _ _ _ _ _ Eb). rewrite (bind_ok _ _ _ _ _ Ei).
             reflexivity. }
           cbn. split; [intro Hne; contradiction|].
           intros _. apply insert_batches_ok in Ei.
           destruct Ei as [_ [_ [Hnil [Hcommitted Hne]]]].
           destruct (slices (Z.to_nat batch_size) (map make_row products))
             as [|b bs] eqn:Hs.
           ++ split.
              ** unfold quiescent. rewrite (Hnil eq_refl), Hc. exact Hq.
              ** intros _. left. apply slices_nil_inv in Hs.
                 destruct products; [reflexivity | discriminate].
           ++ split.
              ** unfold quiescent. symmetry. apply Hcommitted. discriminate.
              ** intro Hp. exfalso.
                 assert (Hall : Forall (fun b => b <> [])
                                  (slices (Z.to_nat batch_size) (map make_row products))).
                 { apply slices_fuel_nonempty. lia. }
                 rewrite Hs in Hall. apply Forall_inv in Hall.
                 apply Hne; [|exact Hp]. left. constructor. exact Hall.
        -- destruct (populate_handler
                       {| PopResult.success := false; PopResult.inserted := 0;
                          PopResult.error := Some e |} w1) as [w2 [Eh [_ Hc2]]].
           exists w2, {| PopResult.success := false; PopResult.inserted := 0;
                         PopResult.error := Some e |}.
           split.
           { erewrite try_raised; [exact Eh|].
             rewrite (bind_ok _ _ _ _ _ E). rewrite Hcount.
             rewrite (bind_ok _ _ _ _ _ Eb). apply bind_raised. exact Ei. }
           cbn. split; [intro Hne; contradiction | discriminate].
  - (* the count fails *)
    destruct (populate_handler
                {| PopResult.success := false; PopResult.inserted := 0;
                   PopResult.error := Some e |} w0) as [w1 [Eh [_ Hc1]]].
    exists w1, {| PopResult.success := false; PopResult.inserted := 0;
                  PopResult.error := Some e |}.
    split.
    { erewrite try_raised; [exact Eh|]. apply bind_raised. exact E. }
    cbn. split; [|discriminate].
    intros _. split; [reflexivity|]. split.
    + rewrite Hc in Hc1. exact (rollback_quiescent _ _ Hq Hc1).
    + rewrite Hf. discriminate.
Qed.

(** Without storage failures every statement goes through. *)
Lemma db_step_no_fault effect (w : Sqlite.World) :
  Sqlite.faults w = [] ->
  exists w', db_step effect w = (w', Ok tt) /\ Sqlite.faults w' = [].
Proof.
  intro Hf. unfold db_step. rewrite Hf. eexists. split; reflexivity.
Qed.

Lemma executemany_no_fault (batch : list Item.t) :
  forall w : Sqlite.World,
    Sqlite.faults w = [] ->
    exists w', executemany batch w = (w', Ok tt) /\ Sqlite.faults w' = [].
Proof.
  induction batch as [|row rest IH]; intros w Hf.
  - exists w. split; [reflexivity | exact Hf].
  - destruct (db_step_no_fault (Sqlite.do_insert_product row) w Hf) as [w1 [E1 Hf1]].
    destruct (IH w1 Hf1) as [w2 [E2 Hf2]].
    exists w2. split; [|exact Hf2].
    cbn [executemany]. rewrite (bind_ok _ _ _ _ _ E1). exact E2.
Qed.

Lemma insert_batches_no_fault (bs : list (list Item.t)) :
  forall (acc : Z) (w : Sqlite.World),
    Sqlite.faults w = [] ->
    exists w' n, insert_batches bs acc w = (w', Ok n) /\ Sqlite.faults w' = [].
Proof.
  induction bs as [|batch rest IH]; intros acc w Hf.
  - exists w, acc. split; [reflexivity | exact Hf].
  - destruct (executemany_no_fault batch w Hf) as [w1 [E1 Hf1]].
    destruct (db_step_no_fault Sqlite.do_commit w1 Hf1) as [w2 [E2 Hf2]].
    destruct (IH (acc + Z.of_nat (List.length batch)) w2 Hf2) as [w3 [n [E3 Hf3]]].
    exists w3, n. split; [|exact Hf3].
    cbn [insert_batches].
    rewrite (bind_ok _ _ _ _ _ E1), (bind_ok _ _ _ _ _ E2). exact E3.
Qed.

(** Without storage failures, and with a batch size other than zero, the
    call reports success. *)
Lemma populate_succeeds (products : list Product.t) (batch_size : Z)
      (w : Sqlite.World) :
  Sqlite.faults w = [] -> batch_size <> 0 ->
  exists w1 r1,
    populate_products_safe products batch_size w = (w1, Ok r1)
    /\ PopResult.success r1 = true.
Proof.
  intros Hf Hb. unfold populate_products_safe. cbv zeta.
  destruct (db_step_no_fault Sqlite.do_select w Hf) as [w0 [E0 Hf0]].
  assert (E : exists n, select_count w = (w0, Ok n)).
  { unfold select_count. rewrite (bind_ok _ _ _ _ _ E0).
    eexists. reflexivity. }
  destruct E as [n E].
  destruct (n >? 0) eqn:Hcount.
  - eexists w0, _. split.
    { apply try_ok. rewrite (bind_ok _ _ _ _ _ E). rewrite Hcount. reflexivity. }
    reflexivity.
  - destruct (batches_of_cases (map make_row products) batch_size w0)
      as [[Hz _]|[[_ Eb]|[_ Eb]]]; [contradiction| |].
    + eexists w0, _. split.
      { apply try_ok. rewrite (bind_ok _ _ _ _ _ E). rewrite Hcount.
        rewrite (bind_ok _ _ _ _ _ Eb). reflexivity. }
      reflexivity.
    + destruct (insert_batches_no_fault
                  (slices (Z.to_nat batch_size) (map make_row products)) 0 w0 Hf0)
        as [w1 [k [Ei _]]].
      eexists w1, _. split.
      { apply try_ok. rewrite (bind_ok _ _ _ _ _ E). rewrite Hcount.
        rewrite (bind_ok _ _ _ _ _ Eb), (bind_ok _ _ _ _ _ Ei). reflexivity. }
      reflexivity.
Qed.

(** A further call, on a store that is either populated or was left empty
    because there was nothing to insert: it inserts nothing and leaves the
    connection as it was, whatever the storage layer does. *)
Lemma populate_again (products : list Product.t) (batch_size : Z) (w : Sqlite.World) :
  quiescent w ->
  (Sqlite.products (Sqlite.working (Sqlite.conn w)) = [] ->
   products = [] \/ batch_size < 0) ->
  exists w2 r2,
    populate_products_safe products batch_size w = (w2, Ok r2)
    /\ PopResult.inserted r2 = 0
    /\ Sqlite.conn w2 = Sqlite.conn w.
Proof.
  intros Hq Hnothing. unfold populate_products_safe. cbv zeta.
  destruct (select_count_cases w) as [[w0 [E [Hc [Ho Hf]]]]|[w0 [e [E [Hc [Ho Hf]]]]]].
  - destruct (Z.of_nat (List.length (Sqlite.products (Sqlite.working (Sqlite.conn w)))) >? 0)
      eqn:Hcount.
    + eexists w0, _. split.
      { apply try_ok. rewrite (bind_ok _ _ _ _ _ E). rewrite Hcount. reflexivity. }
      cbn. split; [reflexivity | exact Hc].
    + assert (Hempty : Sqlite.products (Sqlite.working (Sqlite.conn w)) = []).
      { destruct (Sqlite.products (Sqlite.working (Sqlite.conn w))) as [|x l] eqn:Hp;
          [reflexivity|].
        assert (Hpos : (Z.of_nat (List.length (x :: l)) >? 0) = true)
          by (apply count_positive; discriminate).
        congruence. }
      specialize (Hnothing Hempty).
      destruct (batches_of_cases (map make_row products) batch_size w0)
        as [[Hb [e Eb]]|[[Hb Eb]|[Hb Eb]]].
      * destruct (populate_handler
                    {| PopResult.success := false; PopResult.inserted := 0;
                       PopResult.error := Some e |} w0) as [w1 [Eh [_ Hc1]]].
        exists w1, {| PopResult.success := false; PopResult.inserted := 0;
                      PopResult.error := Some e |}.
        split.
        { erewrite try_raised; [exact Eh|].
          rewrite (bind_ok _ _ _ _ _ E). rewrite Hcount.
          apply bind_raised. exact Eb. }
        cbn. split; [reflexivity|].
        rewrite Hc in Hc1. exact (rollback_quiescent _ _ Hq Hc1).
      * eexists w0, _. split.
        { apply try_ok. rewrite (bind_ok _ _ _ _ _ E). rewrite Hcount.
          rewrite (bind_ok _ _ _ _ _ Eb). reflexivity. }
        cbn. split; [reflexivity | exact Hc].
      * destruct Hnothing as [Hp|Hneg]; [|lia]. subst products.
        eexists w0, _. split.
        { apply try_ok. rewrite (bind_ok _ _ _ _ _ E). rewrite Hcount.
          rewrite (bind_ok _ _ _ _ _ Eb). reflexivity. }
        cbn. split; [reflexivity | exact Hc].
  - destruct (populate_handler
                {| PopResult.success := false; PopResult.inserted := 0;
                   PopResult.error := Some e |} w0) as [w1 [Eh [_ Hc1]]].
    exists w1, {| PopResult.success := false; PopResult.inserted := 0;
                  PopResult.error := Some e |}.
    split.
    { erewrite try_raised; [exact Eh|]. apply bind_raised. exact E. }
    cbn. split; [reflexivity|].
    rewrite Hc in Hc1. exact (rollback_quiescent _ _ Hq Hc1).
Qed.

(** [populate_products_safe] returns a result in every world. *)
Lemma populate_returns (products : list Product.t) (batch_size : Z)
      (w : Sqlite.World) :
  exists w' r, populate_products_safe products batch_size w = (w', Ok r).
Proof.
  unfold populate_products_safe. cbv zeta. unfold try_except.
  match goal with
  | |- context [match ?m w with _ => _ end] => destruct (m w) as [w0 [r|e]]
  end.
  - exists w0, r. reflexivity.
  - destruct (populate_handler
                {| PopResult.success := false; PopResult.inserted := 0;
                   PopResult.error := Some e |} w0) as [w1 [Eh _]].
    exists w1, {| PopResult.success := false; PopResult.inserted := 0;
                  PopResult.error := Some e |}. exact Eh.
Qed.

(** C5. Seeding is idempotent.  Called on a connection with no open
    transaction, [populate_products_safe] returns a result (it never
    raises).  If the store already holds a row, the call inserts nothing,
    leaves every table as it was, and reports success unless the storage
    layer fails.  A call reports success whenever the storage layer does
    not fail (and the batch size is not zero).  After a call that reported
    success, a second call with the same items reports [inserted = 0] and
    leaves the store, hence the number of stored items, unchanged; this
    holds whatever failures the storage layer reports during the second
    call. *)
Theorem populate_products_safe_idempotent
        (products : list Product.t) (batch_size : Z) (w : Sqlite.World) :
  quiescent w ->
  exists w1 r1 w2 r2,
    populate_products_safe products batch_size w = (w1, Ok r1)
    /\ populate_products_safe products batch_size w1 = (w2, Ok r2)
    /\ (Sqlite.products (Sqlite.working (Sqlite.conn w)) <> [] ->
        PopResult.inserted r1 = 0
        /\ Sqlite.conn w1 = Sqlite.conn w
        /\ (next_fault w = None -> PopResult.success r1 = true))
    /\ (Sqlite.faults w = [] -> batch_size <> 0 -> PopResult.success r1 = true)
    /\ (PopResult.success r1 = true ->
        PopResult.inserted r2 = 0
        /\ Sqlite.conn w2 = Sqlite.conn w1
        /\ List.length (Sqlite.products (Sqlite.durable (Sqlite.conn w2)))
           = List.length (Sqlite.products (Sqlite.durable (Sqlite.conn w1)))).
Proof.
  intro Hq.
  destruct (populate_first products batch_size w Hq) as [w1 [r1 [E1 [Hpop Hsucc]]]].
  assert (Hnf : Sqlite.faults w = [] -> batch_size <> 0 -> PopResult.success r1 = true).
  { intros Hf Hb.
    destruct (populate_succeeds products batch_size w Hf Hb) as [w1' [r1' [E1' Hs']]].
    rewrite E1 in E1'. inversion E1'; subst. exact Hs'. }
  destruct (populate_returns products batch_size w1) as [w2 [r2 E2]].
  exists w1, r1, w2, r2.
  split; [exact E1|]. split; [exact E2|]. split; [exact Hpop|]. split; [exact Hnf|].
  intro Ht. destruct (Hsucc Ht) as [Hq1 Hnothing].
  destruct (populate_again products batch_size w1 Hq1 Hnothing)
    as [w2' [r2' [E2' [Hi Hc]]]].
  rewrite E2 in E2'. inversion E2'; subst w2' r2'.
  split; [exact Hi|]. split; [exact Hc|]. rewrite Hc. reflexivity.
Qed.

(** The theorem at the sample catalog, on a fresh connection. *)
Lemma populate_products_safe_idempotent_witness :
  quiescent fresh_world
  /\ exists w1 r1 w2 r2,
       populate_products_safe [dragon_burger_product; classic_burger_product] 50
                              fresh_world = (w1, Ok r1)
       /\ populate_products_safe [dragon_burger_product; classic_burger_product] 50
                                 w1 = (w2, Ok r2)
       /\ (Sqlite.products (Sqlite.working (Sqlite.conn fresh_world)) <> [] ->
           PopResult.inserted r1 = 0
           /\ Sqlite.conn w1 = Sqlite.conn fresh_world
           /\ (next_fault fresh_world = None -> PopResult.success r1 = true))
       /\ (Sqlite.faults fresh_world = [] -> 50 <> 0 -> PopResult.success r1 = true)
       /\ (PopResult.success r1 = true ->
           PopResult.inserted r2 = 0
           /\ Sqlite.conn w2 = Sqlite.conn w1
           /\ List.length (Sqlite.products (Sqlite.durable (Sqlite.conn w2)))
              = List.length (Sqlite.products (Sqlite.durable (Sqlite.conn w1)))).
Proof.
  split.
  - reflexivity.
  - apply (populate_products_safe_idempotent
             [dragon_burger_product; classic_burger_product] 50 fresh_world).
    reflexivity.
Defined.

(** Seeding the sample catalog twice: two rows go in, then none. *)
Example populate_twice :
  let first := populate_products_safe
                 [dragon_burger_product; classic_burger_product] 50 fresh_world in
  let second := populate_products_safe
                  [dragon_burger_product; classic_burger_product] 50 (fst first) in
  snd first = Ok {| PopResult.success := true; PopResult.inserted := 2;
                    PopResult.error := None |}
  /\ snd second = Ok {| PopResult.success := true; PopResult.inserted := 0;
                        PopResult.error := None |}
  /\ Sqlite.products (Sqlite.durable (Sqlite.conn (fst second)))
     = [dragon_burger; classic_burger].
Proof. vm_compute. repeat split; reflexivity. Qed.

(** A storage failure in the second batch: the first batch stays
    committed, the second is rolled back, and the error is reported. *)
Example populate_fails_midway :
  let w := {| Sqlite.conn := Sqlite.conn fresh_world; Sqlite.stdout := [];
              Sqlite.faults := [None; None; None; Some "disk I/O error"] |} in
  let run := populate_products_safe
               [dragon_burger_product; classic_burger_product] 1 w in
  snd run = Ok {| PopResult.success := false; PopResult.inserted := 0;
                  PopResult.error := Some "disk I/O error" |}
  /\ Sqlite.products (Sqlite.working (Sqlite.conn (fst run))) = [dragon_burger].
Proof. vm_compute. repeat split; reflexivity. Qed.

(* ================================================================== *)
(** * Properties of the conversation log and of a turn *)
(* ================================================================== *)

(** [log_conversation] returns in each of the three courses a write can
    take: the INSERT fails, the COMMIT fails, or both go through. *)
Lemma log_conversation_cases (now user_message bot_response : string) (score : Z)
      (recs : option (list ScoredItem)) (session_id : string) (w : Sqlite.World) :
  exists w',
    log_conversation now user_message bot_response score recs session_id w
    = (w', Ok tt)
    /\ Sqlite.products (Sqlite.working (Sqlite.conn w'))
       = Sqlite.products (Sqlite.working (Sqlite.conn w))
    /\ (Sqlite.products (Sqlite.durable (Sqlite.conn w'))
        = Sqlite.products (Sqlite.durable (Sqlite.conn w))
        \/ Sqlite.products (Sqlite.durable (Sqlite.conn w'))
           = Sqlite.products (Sqlite.working (Sqlite.conn w))).
Proof.
  destruct w as [c out fs].
  destruct fs as [|[msg|] [|[msg2|] fs]];
    (eexists; split; [reflexivity|]; cbn; auto).
Qed.

(** A turn returns the reply computed from the products table it read, and
    leaves that table as it was. *)
Lemma on_user_input_run `{SortValues} (db : bool) (fallback : list Item.t)
      (session_id now user_input : string) (w : Sqlite.World) :
  exists w',
    on_user_input db fallback session_id now user_input w
    = (w', Ok (reply_to db (Sqlite.products (Sqlite.working (Sqlite.conn w)))
                        fallback user_input))
    /\ Sqlite.products (Sqlite.working (Sqlite.conn w'))
       = Sqlite.products (Sqlite.working (Sqlite.conn w)).
Proof.
  unfold on_user_input, reply_to.
  destruct user_input as [|a rest].
  - exists w. split; reflexivity.
  - cbv zeta. destruct db.
    + unfold bind, get_working, ret. cbv beta iota.
      match goal with
      | |- context [log_conversation ?n ?u ?b ?s ?r ?i w] =>
          destruct (log_conversation_cases n u b s r i w) as [w' [E [Hp _]]]
      end.
      exists w'. split; [|exact Hp].
      rewrite E. reflexivity.
    + exists w. split; reflexivity.
Qed.

(** C9. A failure of the conversation log does not reach the user-facing
    flow.  [log_conversation] returns normally in every world: when the
    INSERT or the COMMIT fails, the error is printed as one line and the
    committed tables stay as they were; when both succeed, the turn is
    appended to the committed log.  A turn on a non-empty input therefore
    always produces its reply, with the message built from the
    recommendations. *)
Theorem log_conversation_never_raises `{SortValues}
        (now user_message bot_response session_id : string) (score : Z)
        (recs : option (list ScoredItem)) (w : Sqlite.World)
        (db : bool) (fallback : list Item.t) (a : ascii) (rest : string) :
  (exists w',
      log_conversation now user_message bot_response score recs session_id w
      = (w', Ok tt)
      /\ match Sqlite.faults w with
         | Some msg :: _ =>
             Sqlite.stdout w' = (Sqlite.stdout w ++ [log_error_line msg])%list
             /\ Sqlite.conn w' = Sqlite.conn w
         | None :: Some msg :: _ =>
             Sqlite.stdout w' = (Sqlite.stdout w ++ [log_error_line msg])%list
             /\ Sqlite.durable (Sqlite.conn w') = Sqlite.durable (Sqlite.conn w)
         | _ =>
             Sqlite.stdout w' = Sqlite.stdout w
             /\ Sqlite.conversations (Sqlite.durable (Sqlite.conn w'))
                = (Sqlite.conversations (Sqlite.working (Sqlite.conn w))
                   ++ [logged_turn now user_message bot_response score recs session_id
                         (Z.of_nat (List.length
                            (Sqlite.conversations (Sqlite.working (Sqlite.conn w)))) + 1)])%list
         end)
  /\ (exists w' reply,
         on_user_input db fallback session_id now (String a rest) w
         = (w', Ok (Some reply))
         /\ Reply.bot_msg reply = bot_message (Reply.recs reply)
         /\ Reply.score reply = calculate_interest (String a rest)).
Proof.
  split.
  - destruct w as [c out fs].
    destruct fs as [|[msg|] [|[msg2|] fs]];
      (eexists; split; [reflexivity|]; cbn; split; reflexivity).
  - destruct (on_user_input_run db fallback session_id now (String a rest) w)
      as [w' [E _]].
    eexists w', _. split; [exact E|]. split; reflexivity.
Qed.

(** A log that cannot be written: the turn still answers, and the failure
    is on the standard output. *)
Example broken_log_still_answers :
  let w := {| Sqlite.conn :=
                {| Sqlite.durable := {| Sqlite.products := [dragon_burger];
                                        Sqlite.conversations := [] |};
                   Sqlite.working := {| Sqlite.products := [dragon_burger];
                                        Sqlite.conversations := [] |} |};
              Sqlite.stdout := [];
              Sqlite.faults := [Some "database is locked"] |} in
  let run := @on_user_input stable_sort true [] "SID1234" "2024-01-01T12:00:00"
                            "burger" w in
  option_map Reply.bot_msg
    (match snd run with Ok r => r | Raised _ => None end)
  = Some "I found 1 good matches for you!"
  /\ Sqlite.stdout (fst run) = ["log_conversation error: database is locked"].
Proof. vm_compute. split; reflexivity. Qed.

(** ** One catalog and one intent, two sorting routines *)












(* ================================================================== *)
(** * The two scoring rules side by side *)
(* ================================================================== *)

(** The score of the specification is the score of [recommend_products]
    plus the category bonus, as long as the column does not wrap around. *)
Lemma spec_match_score_split (mood category : option string)
      (keywords : list string) (r : Item.t) :
  fits_int64 (1 + 3 * Z.of_nat (List.length keywords)) r ->
  spec_match_score mood category keywords r
  = db_match_score mood (Some keywords) r + category_bonus category r.
Proof.
  intro Hfit. rewrite (db_match_score_sum mood (Some keywords) r Hfit).
  unfold spec_match_score, db_match_sum. cbn [or_default]. ring.
Qed.

(** A row that passed the query for a wildcard-free category would earn the
    category bonus: on every returned row the two scores differ by one. *)
Lemma category_bonus_of_survivor `{SortValues} (tbl : list Item.t)
      (mood : option string) (budget : option Q) (a : ascii) (c : string)
      (keywords : option (list string)) :
  no_wildcard (String a c) = true ->
  Forall (fun x => category_bonus (Some (String a c)) (item_of x) = 1)
         (recommend_products tbl mood budget (Some (String a c)) keywords).
Proof.
  intro Hc.
  pose proof (recommend_products_within_category tbl mood budget a c keywords Hc) as Hall.
  rewrite Forall_forall in *. intros x Hx. specialize (Hall x Hx).
  unfold category_bonus. cbn [Py.truthy_str andb]. rewrite Hall. reflexivity.
Qed.

(** The end-to-end scenario of the specification: both burgers pass the
    query of "spicy burger under $10"; the classic one keeps the lead, 97
    against 85, with either sorting routine. *)
Example spicy_burger_under_10_ranking :
  let intent := extract_intent "spicy burger under $10" in
  @recommend_products stable_sort [dragon_burger; classic_burger]
     (Intent.mood intent) (Intent.budget intent) (Intent.category intent)
     (Some (Intent.keywords intent))
  = [(classic_burger, 97); (dragon_burger, 85)]
  /\ @recommend_products reversing_sort [dragon_burger; classic_burger]
       (Intent.mood intent) (Intent.budget intent) (Intent.category intent)
       (Some (Intent.keywords intent))
     = [(classic_burger, 97); (dragon_burger, 85)].
Proof. split; vm_compute; reflexivity. Qed.

(** An intent whose query matches no row yields the empty sequence. *)
Example no_match_is_empty `{SortValues} :
  recommend_products [dragon_burger; classic_burger] None (Some (3 # 1))
                     (Some "Pizza") (Some ["pizza"]) = [].
Proof.
  rewrite recommend_products_stages.
  match goal with
  | |- head10 (sort_values_desc ?df) = _ =>
      replace df with (@nil ScoredItem) by (vm_compute; reflexivity)
  end.
  rewrite (Permutation_nil (sort_values_perm [])). reflexivity.
Qed.

(* ================================================================== *)
(** * Further properties of the text functions *)
(* ================================================================== *)

Lemma lower_ascii_idempotent (c : ascii) :
  Py.lower_ascii (Py.lower_ascii c) = Py.lower_ascii c.
Proof. destruct c as [[] [] [] [] [] [] [] []]; reflexivity. Qed.

Lemma lower_idempotent (s : string) : Py.lower (Py.lower s) = Py.lower s.
Proof.
  induction s as [|c s IH]; simpl; [reflexivity|].
  rewrite lower_ascii_idempotent, IH. reflexivity.
Qed.

Lemma string_app_assoc (a b c : string) : ((a ++ b) ++ c = a ++ (b ++ c))%string.
Proof. induction a as [|x a IH]; simpl; [reflexivity | rewrite IH; reflexivity]. Qed.

Lemma startswith_iff (p s : string) :
  Py.startswith p s = true <-> exists v, s = (p ++ v)%string.
Proof.
  revert s. induction p as [|a p IH]; intro s; simpl.
  - split; [intros _; exists s; reflexivity | reflexivity].
  - destruct s as [|b s].
    + split; [discriminate | intros [v Hv]; discriminate].
    + rewrite andb_true_iff, IH. split.
      * intros [Hab [v ->]]. apply Ascii.eqb_eq in Hab. subst b.
        exists v. reflexivity.
      * intros [v Hv]. inversion Hv; subst.
        split; [apply Ascii.eqb_refl | exists v; reflexivity].
Qed.

(** [p in s] holds exactly when [s] is some text, then [p], then some text. *)
Lemma contains_iff (p s : string) :
  Py.contains p s = true <-> exists u v, s = (u ++ p ++ v)%string.
Proof.
  induction s as [|c s IH]; cbn [Py.contains]; rewrite orb_true_iff, startswith_iff.
  - split.
    + intros [[v Hv]|Hf]; [|discriminate]. exists EmptyString, v. exact Hv.
    + intros [u [v Huv]]. left.
      destruct u as [|x u]; [exists v; exact Huv | discriminate].
  - rewrite IH. split.
    + intros [[v Hv]|[u [v Huv]]].
      * exists EmptyString, v. exact Hv.
      * exists (String c u), v. simpl. rewrite Huv. reflexivity.
    + intros [u [v Huv]]. destruct u as [|x u].
      * left. exists v. exact Huv.
      * right. simpl in Huv. inversion Huv; subst. exists u, v. reflexivity.
Qed.

(** A text that contains a phrase contains every part of the phrase. *)
Lemma contains_trans (p q s : string) :
  Py.contains p q = true -> Py.contains q s = true -> Py.contains p s = true.
Proof.
  rewrite !contains_iff. intros [u1 [v1 ->]] [u2 [v2 ->]].
  exists (u2 ++ u1)%string, (v1 ++ v2)%string.
  rewrite !string_app_assoc. reflexivity.
Qed.

Lemma orb_absorb (x y : bool) : (x = true -> y = true) -> y || x = y.
Proof. destruct x, y; intro Hxy; try reflexivity. discriminate (Hxy eq_refl). Qed.

(** X1. The alternation rules of the interest scorer fire exactly when one
    of their words occurs in the text, and several alternatives in the
    source can never decide a rule: "i'll take it" and "i will take it" are
    covered by "take it", "yummy" by "yum", and "too expensive" by
    "expensive".  A text with "vegan" in it always earns the food-mention
    weight together with the vegetarian weight. *)
Theorem interest_rules_covered_phrases (text : string) :
  Re.found Patterns.purchase text
  = Py.contains "order" text || Py.contains "add to cart" text
    || Py.contains "take it" text || Py.contains "buy" text
  /\ Re.found Patterns.praise text
     = Py.contains "love" text || Py.contains "perfect" text
       || Py.contains "amazing" text || Py.contains "great" text
       || Py.contains "yum" text
  /\ Py.contains "too expensive" text || Py.contains "expensive" text
     = Py.contains "expensive" text
  /\ (Py.contains "vegan" text = true -> Re.found Patterns.food text = true).
Proof.
  assert (Htake1 : Py.contains "i'll take it" text = true ->
                   Py.contains "take it" text = true)
    by (apply contains_trans; reflexivity).
  assert (Htake2 : Py.contains "i will take it" text = true ->
                   Py.contains "take it" text = true)
    by (apply contains_trans; reflexivity).
  assert (Hyum : Py.contains "yummy" text = true -> Py.contains "yum" text = true)
    by (apply contains_trans; reflexivity).
  assert (Hexp : Py.contains "too expensive" text = true ->
                 Py.contains "expensive" text = true)
    by (apply contains_trans; reflexivity).
  split; [|split; [|split]].
  - unfold Patterns.purchase. rewrite found_any_of. cbn [existsb].
    destruct (Py.contains "i'll take it" text);
      destruct (Py.contains "i will take it" text);
      destruct (Py.contains "take it" text);
      try discriminate (Htake1 eq_refl); try discriminate (Htake2 eq_refl);
      destruct (Py.contains "order" text), (Py.contains "add to cart" text),
               (Py.contains "buy" text); reflexivity.
  - unfold Patterns.praise. rewrite found_any_of. cbn [existsb].
    destruct (Py.contains "yummy" text); destruct (Py.contains "yum" text);
      try discriminate (Hyum eq_refl);
      destruct (Py.contains "love" text), (Py.contains "perfect" text),
               (Py.contains "amazing" text), (Py.contains "great" text); reflexivity.
  - rewrite orb_comm. apply orb_absorb, Hexp.
  - intro Hv. unfold Patterns.food. rewrite found_any_of. cbn [existsb].
    rewrite Hv. rewrite !orb_true_r. reflexivity.
Qed.

(** X2. Upper and lower case make no difference to the interest score nor
    to the extracted intent: both read the lowercased text only. *)
Theorem scorer_and_extraction_ignore_case (user_input : string) :
  calculate_interest (Py.lower user_input) = calculate_interest user_input
  /\ extract_intent (Py.lower user_input) = extract_intent user_input.
Proof.
  split.
  - destruct user_input as [|c rest]; [reflexivity|].
    cbn [Py.lower]. rewrite !calculate_interest_unfold.
    change (String (Py.lower_ascii c) (Py.lower rest)) with (Py.lower (String c rest)).
    rewrite lower_idempotent. reflexivity.
  - unfold extract_intent. rewrite lower_idempotent. reflexivity.
Qed.

(** Every character of [s] satisfies [p]. *)
Fixpoint all_chars (p : ascii -> bool) (s : string) : bool :=
  match s with
  | EmptyString => true
  | String c s' => p c && all_chars p s'
  end.

(** A character that lowering leaves alone. *)
Definition is_lowered (c : ascii) : bool := Ascii.eqb (Py.lower_ascii c) c.

Lemma all_chars_lower (s : string) : all_chars is_lowered (Py.lower s) = true.
Proof.
  induction s as [|c s IH]; simpl; [reflexivity|].
  unfold is_lowered at 1. rewrite lower_ascii_idempotent, Ascii.eqb_refl. exact IH.
Qed.

Lemma lower_fixed (s : string) : all_chars is_lowered s = true -> Py.lower s = s.
Proof.
  induction s as [|c s IH]; simpl; [reflexivity|].
  intro Hc. apply andb_true_iff in Hc. destruct Hc as [Hc Hs].
  apply Ascii.eqb_eq in Hc. rewrite Hc, (IH Hs). reflexivity.
Qed.

Lemma all_chars_rev_string (p : ascii -> bool) (s : string) :
  forall acc, all_chars p (Re.rev_string acc s) = all_chars p acc && all_chars p s.
Proof.
  induction s as [|c s IH]; intro acc; simpl.
  - rewrite andb_true_r. reflexivity.
  - rewrite IH. simpl. destruct (p c), (all_chars p acc); reflexivity.
Qed.

Lemma rev_string_nonempty (s acc : string) :
  acc <> EmptyString -> Re.rev_string acc s <> EmptyString.
Proof.
  revert acc. induction s as [|c s IH]; intros acc Hacc; simpl.
  - exact Hacc.
  - apply IH. discriminate.
Qed.

(** The tokens of [findall] are non-empty runs of word characters, and a
    property shared by all characters of the text is shared by theirs. *)
Lemma words_from_wellformed (p : ascii -> bool) (s : string) :
  forall cur,
    all_chars p s = true ->
    all_chars p cur = true -> all_chars Re.is_word cur = true ->
    Forall (fun w => w <> EmptyString
                     /\ all_chars Re.is_word w = true /\ all_chars p w = true)
           (Re.words_from cur s).
Proof.
  induction s as [|c s IH]; intros cur Hs Hcur Hword; cbn [Re.words_from].
  - unfold Re.flush. destruct cur as [|x cur]; [constructor|].
    constructor; [|constructor].
    split; [cbn [Re.rev_string]; apply rev_string_nonempty; discriminate|].
    rewrite !all_chars_rev_string. cbn [all_chars andb].
    split; assumption.
  - cbn [all_chars] in Hs. apply andb_true_iff in Hs. destruct Hs as [Hc Hs].
    destruct (Re.is_word c) eqn:Hw.
    + apply IH; [exact Hs | |]; cbn [all_chars]; rewrite ?Hc, ?Hw; assumption.
    + unfold Re.flush. destruct cur as [|x cur].
      * apply IH; [exact Hs | reflexivity | reflexivity].
      * constructor.
        -- split; [cbn [Re.rev_string]; apply rev_string_nonempty; discriminate|].
           rewrite !all_chars_rev_string. cbn [all_chars andb].
           split; assumption.
        -- apply IH; [exact Hs | reflexivity | reflexivity].
Qed.

(** X3. Every keyword of an extracted intent is a non-empty run of word
    characters, is in lower case already (so lowering it again in
    [recommend_products] changes nothing), and is none of the stop words. *)
Theorem extract_intent_keywords_wellformed (user_input : string) :
  Forall (fun kw => kw <> EmptyString
                    /\ all_chars Re.is_word kw = true
                    /\ Py.lower kw = kw
                    /\ Py.mem kw stopwords = false)
         (Intent.keywords (extract_intent user_input)).
Proof.
  unfold extract_intent. cbn [Intent.keywords].
  apply Forall_forall. intros kw Hin.
  apply filter_In in Hin. destruct Hin as [Hin Hstop].
  pose proof (words_from_wellformed is_lowered (Py.lower user_input) EmptyString
                (all_chars_lower user_input) eq_refl eq_refl) as Hall.
  rewrite Forall_forall in Hall. destruct (Hall kw Hin) as [Hne [Hw Hl]].
  split; [exact Hne|]. split; [exact Hw|]. split; [apply lower_fixed, Hl|].
  apply negb_true_iff, Hstop.
Qed.




(** The cents of "under $9.99" are dropped. *)
Example budget_drops_cents :
  Intent.budget (extract_intent "something under $9.99") = Some (9 # 1).
Proof. vm_compute. reflexivity. Qed.

(* ================================================================== *)
(** * Further properties of the query and of the rankings *)
(* ================================================================== *)

(** X5. For a category without the wildcards [%] and [_], which holds for
    the three categories the application detects, [category LIKE '%c%'] is a
    substring test that ignores ASCII case. *)
Theorem category_like_is_substring_test (c s : string) :
  no_wildcard c = true ->
  Sqlite.like ("%" ++ c ++ "%") s = Py.contains (Py.lower c) (Py.lower s)
  /\ no_wildcard "Burgers" = true
  /\ no_wildcard "Pizza" = true
  /\ no_wildcard "Fried Chicken" = true.
Proof.
  intro Hc. split; [apply like_contains, Hc|]. repeat split.
Qed.

Lemma category_like_is_substring_test_witness :
  no_wildcard "Fried Chicken" = true
  /\ (Sqlite.like ("%" ++ "Fried Chicken" ++ "%") "FRIED CHICKEN & more"
      = Py.contains (Py.lower "Fried Chicken") (Py.lower "FRIED CHICKEN & more")
      /\ no_wildcard "Burgers" = true
      /\ no_wildcard "Pizza" = true
      /\ no_wildcard "Fried Chicken" = true).
Proof.
  split.
  - reflexivity.
  - apply (category_like_is_substring_test "Fried Chicken" "FRIED CHICKEN & more").
    reflexivity.
Defined.

(** The category of an extracted intent is one of three. *)
Lemma extract_intent_category_cases (user_input : string) :
  Intent.category (extract_intent user_input) = None
  \/ Intent.category (extract_intent user_input) = Some "Burgers"
  \/ Intent.category (extract_intent user_input) = Some "Pizza"
  \/ Intent.category (extract_intent user_input) = Some "Fried Chicken".
Proof.
  unfold extract_intent. cbn [Intent.category].
  destruct (Py.contains "burger" (Py.lower user_input)); [auto|].
  destruct (Py.contains "pizza" (Py.lower user_input)); [auto|].
  destruct (Py.contains "chicken" (Py.lower user_input)); auto.
Qed.

(** X6. From the user's text to the rows returned by the database ranking:
    when the text names a category, the category of every returned row
    contains it (whatever the case), and when the text gives a budget other
    than zero, every returned row has a price that does not exceed it. *)
Theorem recommendations_respect_detected_filters `{SortValues}
        (user_input : string) (tbl : list Item.t) :
  let intent := extract_intent user_input in
  Forall (fun x =>
            match Intent.category intent with
            | Some c =>
                Py.contains (Py.lower c) (Py.lower (Item.category (item_of x))) = true
            | None => True
            end
            /\ match Intent.budget intent with
               | Some b =>
                   if Qeq_bool b 0 then True
                   else exists p, Item.price (item_of x) = Some p /\ (p <= b)%Q
               | None => True
               end)
         (recommend_products tbl (Intent.mood intent) (Intent.budget intent)
                             (Intent.category intent) (Some (Intent.keywords intent))).
Proof.
  cbv zeta. apply Forall_forall. intros x Hx. split.
  - destruct (extract_intent_category_cases user_input) as [E|[E|[E|E]]];
      rewrite E in *; [exact I| | |];
      match goal with
      | Hin : In x (recommend_products _ ?m ?b (Some (String ?a ?c)) ?k) |- _ =>
          pose proof (recommend_products_within_category tbl m b a c k eq_refl) as Hall
      end;
      rewrite Forall_forall in Hall; exact (Hall x Hx).
  - destruct (Intent.budget (extract_intent user_input)) as [b|] eqn:E; [|exact I].
    destruct (Qeq_bool b 0) eqn:Hb; [exact I|].
    assert (Hnz : ~ (b == 0)%Q).
    { intro Hz. apply Qeq_bool_iff in Hz. congruence. }
    pose proof (recommend_products_within_budget tbl
                  (Intent.mood (extract_intent user_input)) b
                  (Intent.category (extract_intent user_input))
                  (Some (Intent.keywords (extract_intent user_input))) Hnz) as Hall.
    rewrite Forall_forall in Hall. exact (Hall x Hx).
Qed.


(* ================================================================== *)
(** * Properties of the product generator *)
(* ================================================================== *)

(** What holds of every single generated product holds of all products of
    the list. *)
Lemma generate_names_all (P : Product.t -> Prop) (draws : nat -> Draw.t)
      (cat : string) :
  (forall pid name, P (generate_product (draws pid) pid cat name)) ->
  forall names pid, Forall P (fst (generate_names draws cat names pid)).
Proof.
  intros HP names. induction names as [|name names IH]; intro pid; cbn.
  - constructor.
  - specialize (IH (S pid)).
    destruct (generate_names draws cat names (S pid)) as [products pid'].
    cbn in *. constructor; [apply HP | exact IH].
Qed.

Lemma generate_categories_all (P : Product.t -> Prop) (draws : nat -> Draw.t) :
  (forall pid cat name, P (generate_product (draws pid) pid cat name)) ->
  forall cats pid, Forall P (generate_categories draws cats pid).
Proof.
  intros HP cats. induction cats as [|[cat names] cats IH]; intro pid; cbn.
  - constructor.
  - pose proof (generate_names_all P draws cat (fun p n => HP p cat n) names pid) as Hn.
    destruct (generate_names draws cat names pid) as [products pid'].
    cbn in Hn. apply Forall_app. split; [exact Hn | apply IH].
Qed.

(** X8. Whatever is drawn at random, [generate_products] returns twenty
    products whose identifiers are FF001 to FF020 in this order, hence
    pairwise different, four for each of the five categories. *)
Theorem generate_products_identifiers (draws : nat -> Draw.t) :
  map Product.product_id (generate_products draws)
  = ["FF001"; "FF002"; "FF003"; "FF004"; "FF005"; "FF006"; "FF007";
     "FF008"; "FF009"; "FF010"; "FF011"; "FF012"; "FF013"; "FF014";
     "FF015"; "FF016"; "FF017"; "FF018"; "FF019"; "FF020"]
  /\ NoDup (map Product.product_id (generate_products draws))
  /\ map Product.category (generate_products draws)
     = (repeat "Burgers" 4 ++ repeat "Pizza" 4 ++ repeat "Fried Chicken" 4
        ++ repeat "Tacos & Wraps" 4 ++ repeat "Desserts" 4)%list.
Proof.
  assert (Hids : map Product.product_id (generate_products draws)
                 = ["FF001"; "FF002"; "FF003"; "FF004"; "FF005"; "FF006"; "FF007";
                    "FF008"; "FF009"; "FF010"; "FF011"; "FF012"; "FF013"; "FF014";
                    "FF015"; "FF016"; "FF017"; "FF018"; "FF019"; "FF020"])
    by (vm_compute; reflexivity).
  split; [exact Hids|]. split.
  - rewrite Hids.
    repeat (apply NoDup_cons; [cbn; intuition discriminate|]). apply NoDup_nil.
  - vm_compute. reflexivity.
Qed.

(** X9. The mood that the application detects is "spicy", and the
    generator draws the mood tags of a product from comfort, adventurous,
    healthy and indulgent ("spicy" is one of its dietary tags).  So on the
    generated catalog no text ever earns a row the mood bonus. *)
Theorem mood_bonus_never_earned_on_generated_catalog
        (draws : nat -> Draw.t) (user_input : string) :
  (forall pid,
      Forall (fun m => In m ["comfort"; "adventurous"; "healthy"; "indulgent"])
             (Draw.mood_tags (draws pid))) ->
  Forall (fun r => mood_bonus (Intent.mood (extract_intent user_input)) r = 0)
         (map make_row (generate_products draws)).
Proof.
  intro Hdraws. apply Forall_map.
  apply generate_categories_all. intros pid cat name.
  unfold extract_intent. cbn [Intent.mood].
  destruct (Py.contains "spicy" (Py.lower user_input)); [|reflexivity].
  unfold mood_bonus. cbn [Py.truthy_str andb make_row generate_product
                            Item.mood_tags Product.mood_tags or_default].
  assert (Hmem : Py.mem "spicy" (Draw.mood_tags (draws pid)) = false).
  { specialize (Hdraws pid). unfold Py.mem.
    induction Hdraws as [|m tags Hm _ IH]; [reflexivity|].
    cbn [existsb]. rewrite IH, orb_false_r.
    cbn in Hm. destruct Hm as [<-|[<-|[<-|[<-|[]]]]]; reflexivity. }
  rewrite Hmem. reflexivity.
Qed.

Lemma mood_bonus_never_earned_on_generated_catalog_witness :
  (forall pid : nat,
      Forall (fun m => In m ["comfort"; "adventurous"; "healthy"; "indulgent"])
             (Draw.mood_tags (draw_of (999 # 100) ["comfort"; "healthy"] 80)))
  /\ Forall (fun r => mood_bonus (Intent.mood (extract_intent "something spicy")) r = 0)
            tied_catalog.
Proof.
  assert (Hd : forall pid : nat,
             Forall (fun m => In m ["comfort"; "adventurous"; "healthy"; "indulgent"])
                    (Draw.mood_tags (draw_of (999 # 100) ["comfort"; "healthy"] 80))).
  { intros _. cbn [Draw.mood_tags draw_of].
    apply Forall_cons; [cbn; auto|].
    apply Forall_cons; [cbn; auto 6|]. apply Forall_nil. }
  split; [exact Hd|].
  exact (mood_bonus_never_earned_on_generated_catalog
           (fun _ => draw_of (999 # 100) ["comfort"; "healthy"] 80)
           "something spicy" Hd).
Defined.

(* ================================================================== *)
(** * Further properties of the seeding *)
(* ================================================================== *)

(** The table after the rows have been written one after the other. *)
Definition insert_rows (rows tbl : list Item.t) : list Item.t :=
  fold_left (fun t r => Sqlite.insert_or_replace r t) rows tbl.

Lemma filter_keeps_all {A : Type} (f : A -> bool) (l : list A) :
  (forall x, In x l -> f x = true) -> filter f l = l.
Proof.
  induction l as [|x l IH]; intro Hall; simpl; [reflexivity|].
  rewrite (Hall x (or_introl eq_refl)), IH; [reflexivity|].
  intros y Hy. apply Hall. right. exact Hy.
Qed.

(** Rows whose keys are new and pairwise different are appended. *)
Lemma insert_rows_distinct (rows : list Item.t) :
  forall tbl,
    NoDup (map Item.product_id (tbl ++ rows)) ->
    insert_rows rows tbl = (tbl ++ rows)%list.
Proof.
  induction rows as [|r rows IH]; intros tbl Hnd; cbn.
  - rewrite app_nil_r. reflexivity.
  - assert (Hnew : Sqlite.insert_or_replace r tbl = (tbl ++ [r])%list).
    { unfold Sqlite.insert_or_replace. f_equal. apply filter_keeps_all.
      intros x Hx. apply negb_true_iff, String.eqb_neq. intro Heq.
      rewrite map_app in Hnd. cbn in Hnd.
      apply NoDup_remove_2 in Hnd. apply Hnd.
      apply in_or_app. left. rewrite <- Heq. apply in_map, Hx. }
    change (insert_rows rows (Sqlite.insert_or_replace r tbl)
            = (tbl ++ r :: rows)%list).
    rewrite Hnew, IH.
    + rewrite <- app_assoc. reflexivity.
    + rewrite <- app_assoc. exact Hnd.
Qed.

Lemma insert_rows_length (rows : list Item.t) :
  forall tbl,
    (List.length (insert_rows rows tbl) <= List.length tbl + List.length rows)%nat.
Proof.
  induction rows as [|r rows IH]; intro tbl; cbn.
  - lia.
  - change (List.length (insert_rows rows (Sqlite.insert_or_replace r tbl))
            <= List.length tbl + S (List.length rows))%nat.
    specialize (IH (Sqlite.insert_or_replace r tbl)).
    unfold Sqlite.insert_or_replace in IH at 2.
    rewrite length_app in IH. cbn in IH.
    pose proof (filter_length_le
                  (fun x => negb (String.eqb (Item.product_id x) (Item.product_id r)))
                  tbl).
    lia.
Qed.

Lemma insert_rows_app (rows1 rows2 tbl : list Item.t) :
  insert_rows (rows1 ++ rows2) tbl = insert_rows rows2 (insert_rows rows1 tbl).
Proof. unfold insert_rows. apply fold_left_app. Qed.

(** Without storage failures a batch is written row by row. *)
Lemma executemany_writes (batch : list Item.t) :
  forall w : Sqlite.World,
    Sqlite.faults w = [] ->
    exists w',
      executemany batch w = (w', Ok tt)
      /\ Sqlite.faults w' = []
      /\ Sqlite.durable (Sqlite.conn w') = Sqlite.durable (Sqlite.conn w)
      /\ Sqlite.products (Sqlite.working (Sqlite.conn w'))
         = insert_rows batch (Sqlite.products (Sqlite.working (Sqlite.conn w))).
Proof.
  induction batch as [|row rest IH]; intros w Hf.
  - exists w. repeat split; assumption || reflexivity.
  - destruct (db_step_no_fault (Sqlite.do_insert_product row) w Hf) as [w1 [E1 Hf1]].
    destruct (IH w1 Hf1) as [w2 [E2 [Hf2 [Hd2 Hp2]]]].
    apply db_step_ok in E1 as Hc1. destruct Hc1 as [Hc1 _].
    exists w2. split; [|split; [exact Hf2|split]].
    + cbn [executemany]. rewrite (bind_ok _ _ _ _ _ E1). exact E2.
    + rewrite Hd2, Hc1. reflexivity.
    + rewrite Hp2, Hc1. reflexivity.
Qed.

(** Without storage failures the loop writes every batch and commits. *)
Lemma insert_batches_writes (bs : list (list Item.t)) :
  forall (acc : Z) (w : Sqlite.World),
    Sqlite.faults w = [] ->
    exists w',
      insert_batches bs acc w
      = (w', Ok (acc + Z.of_nat (List.length (List.concat bs))))
      /\ Sqlite.faults w' = []
      /\ Sqlite.products (Sqlite.working (Sqlite.conn w'))
         = insert_rows (List.concat bs)
                       (Sqlite.products (Sqlite.working (Sqlite.conn w)))
      /\ (bs <> [] ->
          Sqlite.durable (Sqlite.conn w') = Sqlite.working (Sqlite.conn w')).
Proof.
  induction bs as [|batch rest IH]; intros acc w Hf.
  - exists w. cbn. rewrite Z.add_0_r. repeat split; try assumption.
    intro Hne. congruence.
  - destruct (executemany_writes batch w Hf) as [w1 [E1 [Hf1 [_ Hp1]]]].
    destruct (db_step_no_fault Sqlite.do_commit w1 Hf1) as [w2 [E2 Hf2]].
    apply db_step_ok in E2 as Hc2. destruct Hc2 as [Hc2 _].
    destruct (IH (acc + Z.of_nat (List.length batch)) w2 Hf2)
      as [w3 [E3 [Hf3 [Hp3 Hq3]]]].
    exists w3. split; [|split; [exact Hf3|split]].
    + cbn [insert_batches].
      rewrite (bind_ok _ _ _ _ _ E1), (bind_ok _ _ _ _ _ E2), E3.
      cbn [List.concat]. rewrite length_app. do 2 f_equal. lia.
    + rewrite Hp3, Hc2. cbn [List.concat]. rewrite insert_rows_app.
      cbn. rewrite Hp1. reflexivity.
    + intros _. destruct rest as [|b rest'].
      * cbn in E3. inversion E3; subst w3. rewrite Hc2. reflexivity.
      * apply Hq3. discriminate.
Qed.

Lemma make_row_product_id (products : list Product.t) :
  map Item.product_id (map make_row products) = map Product.product_id products.
Proof. rewrite map_map. reflexivity. Qed.

(** X10. Seeding an empty store when the storage layer does not fail and
    the batch size is positive: the call reports success with [inserted]
    equal to the number of products given, duplicates included, while the
    store holds at most that many rows; when the product identifiers are
    pairwise different it holds exactly the rows of the products, in their
    order, and they are committed. *)
Theorem populate_products_safe_seeds_empty_store
        (products : list Product.t) (batch_size : Z) (w : Sqlite.World) :
  Sqlite.faults w = [] ->
  Sqlite.products (Sqlite.working (Sqlite.conn w)) = [] ->
  0 < batch_size ->
  exists w1,
    populate_products_safe products batch_size w
    = (w1, Ok {| PopResult.success := true;
                 PopResult.inserted := Z.of_nat (List.length products);
                 PopResult.error := None |})
    /\ (List.length (Sqlite.products (Sqlite.working (Sqlite.conn w1)))
        <= List.length products)%nat
    /\ (NoDup (map Product.product_id products) ->
        Sqlite.products (Sqlite.working (Sqlite.conn w1)) = map make_row products)
    /\ (products <> [] ->
        Sqlite.durable (Sqlite.conn w1) = Sqlite.working (Sqlite.conn w1)).
Proof.
  intros Hf Hempty Hb.
  destruct (select_count_cases w) as [[w0 [E [Hc [_ _]]]]|[w0 [e [_ [_ [_ Hnf]]]]]].
  2:{ unfold next_fault in Hnf. rewrite Hf in Hnf. discriminate. }
  assert (Hf0 : Sqlite.faults w0 = []).
  { destruct (db_step_no_fault Sqlite.do_select w Hf) as [w0' [E0 Hf0]].
    unfold select_count in E. rewrite (bind_ok _ _ _ _ _ E0) in E.
    inversion E; subst. exact Hf0. }
  rewrite Hempty in E. cbn [List.length Z.of_nat] in E.
  destruct (batches_of_cases (map make_row products) batch_size w0)
    as [[Hz _]|[[Hneg _]|[_ Eb]]]; [lia | lia |].
  destruct (insert_batches_writes
              (slices (Z.to_nat batch_size) (map make_row products)) 0 w0 Hf0)
    as [w1 [Ei [_ [Hp Hq]]]].
  assert (Hn : (1 <= Z.to_nat batch_size)%nat) by lia.
  rewrite (slices_concat _ _ Hn) in Ei, Hp.
  rewrite Hc, Hempty in Hp. rewrite length_map in Ei. cbn [Z.add] in Ei.
  exists w1. split; [|split; [|split]].
  - unfold populate_products_safe. cbv zeta. apply try_ok.
    rewrite (bind_ok _ _ _ _ _ E). cbn [Z.gtb Z.compare].
    rewrite (bind_ok _ _ _ _ _ Eb), (bind_ok _ _ _ _ _ Ei). reflexivity.
  - rewrite Hp.
    pose proof (insert_rows_length (map make_row products) []) as Hl.
    rewrite length_map in Hl. cbn in Hl. exact Hl.
  - intro Hnd. rewrite Hp. apply (insert_rows_distinct _ []).
    cbn [app]. rewrite make_row_product_id. exact Hnd.
  - intro Hne. apply Hq. intro Hs. apply slices_nil_inv in Hs.
    destruct products; [congruence | discriminate].
Qed.

Lemma populate_products_safe_seeds_empty_store_witness :
  Sqlite.faults fresh_world = []
  /\ Sqlite.products (Sqlite.working (Sqlite.conn fresh_world)) = []
  /\ 0 < 50
  /\ exists w1,
       populate_products_safe [dragon_burger_product; classic_burger_product] 50
                              fresh_world
       = (w1, Ok {| PopResult.success := true;
                    PopResult.inserted := 2;
                    PopResult.error := None |})
       /\ (List.length (Sqlite.products (Sqlite.working (Sqlite.conn w1))) <= 2)%nat
       /\ (NoDup (map Product.product_id
                      [dragon_burger_product; classic_burger_product]) ->
           Sqlite.products (Sqlite.working (Sqlite.conn w1))
           = map make_row [dragon_burger_product; classic_burger_product])
       /\ ([dragon_burger_product; classic_burger_product] <> [] ->
           Sqlite.durable (Sqlite.conn w1) = Sqlite.working (Sqlite.conn w1)).
Proof.
  split; [reflexivity|]. split; [reflexivity|]. split; [lia|].
  exact (populate_products_safe_seeds_empty_store
           [dragon_burger_product; classic_burger_product] 50 fresh_world
           eq_refl eq_refl eq_refl).
Defined.

Lemma bind_ok_inv {A B : Type} (m : M A) (f : A -> M B)
      (w w' : Sqlite.World) (b : B) :
  bind m f w = (w', Ok b) ->
  exists w1 a, m w = (w1, Ok a) /\ f a w1 = (w', Ok b).
Proof.
  unfold bind. destruct (m w) as [w1 [a|e]]; intro E; [|discriminate].
  exists w1, a. split; [reflexivity | exact E].
Qed.

(** X11. The result of [populate_products_safe] has one of two shapes, in
    every world and for every batch size: success without an error, with
    [inserted] between 0 and the number of products given; or failure with
    an error message and [inserted = 0], even when batches written before
    the failure stay committed. *)
Theorem populate_products_safe_result_shape
        (products : list Product.t) (batch_size : Z) (w : Sqlite.World) :
  exists w' r,
    populate_products_safe products batch_size w = (w', Ok r)
    /\ ((PopResult.success r = true /\ PopResult.error r = None
         /\ 0 <= PopResult.inserted r <= Z.of_nat (List.length products))
        \/ (PopResult.success r = false /\ PopResult.inserted r = 0
            /\ exists e, PopResult.error r = Some e)).
Proof.
  unfold populate_products_safe. cbv zeta. unfold try_except.
  match goal with
  | |- context [match ?m w with _ => _ end] => destruct (m w) as [w0 [r|e]] eqn:Eb
  end.
  - exists w0, r. split; [reflexivity|]. left.
    apply bind_ok_inv in Eb. destruct Eb as [w1 [count [_ Eb]]].
    destruct (count >? 0).
    + inversion Eb; subst. cbn. repeat split; lia.
    + apply bind_ok_inv in Eb. destruct Eb as [w2 [bs [Ebs Eb]]].
      apply bind_ok_inv in Eb. destruct Eb as [w3 [n [Ei Eb]]].
      inversion Eb; subst. cbn. split; [reflexivity|]. split; [reflexivity|].
      apply insert_batches_ok in Ei. destruct Ei as [Hn _]. rewrite Hn.
      destruct (batches_of_cases (map make_row products) batch_size w1)
        as [[_ [e Ee]]|[[_ Ee]|[Hpos Ee]]]; rewrite Ee in Ebs; inversion Ebs; subst.
      * cbn. lia.
      * rewrite slices_concat by lia. rewrite length_map. lia.
  - destruct (populate_handler
                {| PopResult.success := false; PopResult.inserted := 0;
                   PopResult.error := Some e |} w0) as [w1 [Eh _]].
    exists w1, {| PopResult.success := false; PopResult.inserted := 0;
                  PopResult.error := Some e |}.
    split; [exact Eh|]. right. cbn. repeat split. exists e. reflexivity.
Qed.

(* ================================================================== *)
(** * The start of the script *)
(* ================================================================== *)

(** [sqlite3.connect]: a new connection sees the committed tables. *)
Definition do_connect (c : Sqlite.Conn) : Sqlite.Conn :=
  {| Sqlite.durable := Sqlite.durable c; Sqlite.working := Sqlite.durable c |}.

(** [CREATE TABLE IF NOT EXISTS]: a table that exists is left alone, and a
    missing one is created empty, which is how a missing table is held. *)
Definition do_create_table (c : Sqlite.Conn) : Sqlite.Conn := c.

Local Open Scope py_scope.

Definition create_tables : M unit :=
  db_step do_create_table ;;;
  db_step do_create_table ;;;
  db_step Sqlite.do_commit.

(** [FoodieBotDatabase.__init__] *)
Definition new_database : M unit :=
  db_step do_connect ;;;
  create_tables.

Local Close Scope py_scope.

(** The names bound when the [try] block of the script is left. *)
Module Locals.
Record t : Type := mk {
  db : bool;                            (* [db is not None] *)
  products : option (list Product.t);   (* [None]: the name is not bound *)
  status_ok : bool;
  status_inserted : Z;
  status_error : option string
}.
End Locals.

(** "Initialize DB": the [try] block with its handler.  What the handler
    finds bound depends on the statement that raised. *)
Definition initialise (draws : nat -> Draw.t) : M Locals.t :=
  fun w =>
    match new_database w with
    | (w1, Raised e) =>
        (w1, Ok {| Locals.db := false; Locals.products := None;
                   Locals.status_ok := false; Locals.status_inserted := 0;
                   Locals.status_error := Some e |})
    | (w1, Ok _) =>
        let products := generate_products draws in
        match populate_products_safe products 50 w1 with
        | (w2, Raised e) =>
            (w2, Ok {| Locals.db := false; Locals.products := Some products;
                       Locals.status_ok := false; Locals.status_inserted := 0;
                       Locals.status_error := Some e |})
        | (w2, Ok pop_res) =>
            (w2, Ok (if PopResult.success pop_res
                     then {| Locals.db := true; Locals.products := Some products;
                             Locals.status_ok := true;
                             Locals.status_inserted := PopResult.inserted pop_res;
                             Locals.status_error := None |}
                     else {| Locals.db := true; Locals.products := Some products;
                             Locals.status_ok := false;
                             Locals.status_inserted := 0;
                             Locals.status_error := None |}))
        end
    end.

(** [FALLBACK_PRODUCTS_DF = pd.DataFrame([p for p in products]) if db is
    None else None]: the comprehension is evaluated only when there is no
    database, and needs the name [products]. *)
Definition fallback_frame (l : Locals.t) : M (option (list Item.t)) :=
  if Locals.db l then ret None
  else match Locals.products l with
       | Some products => ret (Some (map make_row products))
       | None => raise "name 'products' is not defined"
       end.

(** One run of the script up to the end of the input block. *)
Definition script_run (draws : nat -> Draw.t) `{SortValues}
           (session_id now user_input : string) : M (option Reply.t) :=
  bind (initialise draws) (fun l =>
  bind (fallback_frame l) (fun FALLBACK_PRODUCTS_DF =>
  on_user_input (Locals.db l) (or_default [] FALLBACK_PRODUCTS_DF)
                session_id now user_input)).

(** Opening the database either succeeds, and the new connection sees the
    committed tables, or raises and leaves the committed tables alone. *)
Lemma new_database_cases (w : Sqlite.World) :
  exists w1,
    (new_database w = (w1, Ok tt) /\ Sqlite.conn w1 = do_connect (Sqlite.conn w))
    \/ (exists e, new_database w = (w1, Raised e)
                  /\ Sqlite.durable (Sqlite.conn w1) = Sqlite.durable (Sqlite.conn w)).
Proof.
  unfold new_database, create_tables.
  destruct (db_step do_connect w) as [w1 [[]|e]] eqn:E1.
  2:{ exists w1. right. exists e. rewrite (bind_raised _ _ _ _ _ E1).
      apply db_step_raised in E1. destruct E1 as [Hc _].
      split; [reflexivity | rewrite Hc; reflexivity]. }
  rewrite (bind_ok _ _ _ _ _ E1). apply db_step_ok in E1. destruct E1 as [Hc1 _].
  destruct (db_step do_create_table w1) as [w2 [[]|e]] eqn:E2.
  2:{ exists w2. right. exists e. rewrite (bind_raised _ _ _ _ _ E2).
      apply db_step_raised in E2. destruct E2 as [Hc _].
      split; [reflexivity | rewrite Hc, Hc1; reflexivity]. }
  rewrite (bind_ok _ _ _ _ _ E2). apply db_step_ok in E2. destruct E2 as [Hc2 _].
  destruct (db_step do_create_table w2) as [w3 [[]|e]] eqn:E3.
  2:{ exists w3. right. exists e. rewrite (bind_raised _ _ _ _ _ E3).
      apply db_step_raised in E3. destruct E3 as [Hc _].
      split; [reflexivity | rewrite Hc, Hc2, Hc1; reflexivity]. }
  rewrite (bind_ok _ _ _ _ _ E3). apply db_step_ok in E3. destruct E3 as [Hc3 _].
  destruct (db_step Sqlite.do_commit w3) as [w4 [[]|e]] eqn:E4.
  - exists w4. left. split; [reflexivity|].
    apply db_step_ok in E4. destruct E4 as [Hc4 _].
    rewrite Hc4, Hc3, Hc2, Hc1. reflexivity.
  - exists w4. right. exists e. split; [reflexivity|].
    apply db_step_raised in E4. destruct E4 as [Hc4 _].
    rewrite Hc4, Hc3, Hc2, Hc1. reflexivity.
Qed.

(** X12. The fallback ranking is never reached.  When the database object
    cannot be created, the name [products] is not bound yet, since nothing
    after its assignment can raise; building the fallback frame then stops
    the script with a NameError.  Otherwise there is a database object and
    no fallback frame, and the turn is answered from the database. *)
Theorem script_run_never_uses_fallback `{SortValues} (draws : nat -> Draw.t)
        (session_id now user_input : string) (w : Sqlite.World) :
  exists w1 l,
    initialise draws w = (w1, Ok l)
    /\ ((Locals.db l = true
         /\ fallback_frame l w1 = (w1, Ok None)
         /\ script_run draws session_id now user_input w
            = on_user_input true [] session_id now user_input w1)
        \/ (Locals.db l = false
            /\ Locals.products l = None
            /\ script_run draws session_id now user_input w
               = (w1, Raised "name 'products' is not defined"))).
Proof.
  destruct (new_database_cases w) as [w1 [[E Hc]|[e [E Hd]]]].
  - destruct (populate_returns (generate_products draws) 50 w1) as [w2 [r Ep]].
    assert (Ei : exists l, initialise draws w = (w2, Ok l) /\ Locals.db l = true).
    { unfold initialise. rewrite E. cbv zeta. rewrite Ep.
      eexists. split; [reflexivity|]. destruct (PopResult.success r); reflexivity. }
    destruct Ei as [l [Ei Hdb]].
    exists w2, l. split; [exact Ei|]. left.
    assert (Hf : fallback_frame l w2 = (w2, Ok None))
      by (unfold fallback_frame; rewrite Hdb; reflexivity).
    split; [exact Hdb|]. split; [exact Hf|].
    unfold script_run. rewrite (bind_ok _ _ _ _ _ Ei), (bind_ok _ _ _ _ _ Hf), Hdb.
    reflexivity.
  - exists w1. eexists. split.
    { unfold initialise. rewrite E. reflexivity. }
    right. cbn [Locals.db Locals.products]. split; [reflexivity|]. split; [reflexivity|].
    unfold script_run.
    erewrite bind_ok by (unfold initialise; rewrite E; reflexivity).
    apply bind_raised. reflexivity.
Qed.



(** A stored catalog of one row, on a connection without open transaction. *)
Definition seeded_world : Sqlite.World :=
  {| Sqlite.conn :=
       {| Sqlite.durable := {| Sqlite.products := [dragon_burger];
                               Sqlite.conversations := [] |};
          Sqlite.working := {| Sqlite.products := [dragon_burger];
                               Sqlite.conversations := [] |} |};
     Sqlite.stdout := [];
     Sqlite.faults := [] |}.


(* ================================================================== *)
(** * Batches, the log of a turn, and the generated catalog *)
(* ================================================================== *)

Lemma slices_fuel_bounded {A : Type} (n : nat) :
  (1 <= n)%nat ->
  forall (fuel : nat) (rows : list A),
    Forall (fun b => (1 <= List.length b <= n)%nat) (slices_fuel fuel n rows).
Proof.
  intros Hn fuel. induction fuel as [|fuel IH]; intros rows; simpl.
  - constructor.
  - destruct rows as [|x rows]; [constructor|].
    constructor; [|apply IH].
    rewrite length_firstn. cbn [List.length]. lia.
Qed.

(** X14. For a positive batch size the batches of the insertion loop split
    the rows: put end to end they are the rows in their order, and each
    batch holds at least one row and at most [batch_size] rows. *)
Theorem slices_split_the_rows {A : Type} (n : nat) (rows : list A) :
  (1 <= n)%nat ->
  List.concat (slices n rows) = rows
  /\ Forall (fun b => (1 <= List.length b <= n)%nat) (slices n rows).
Proof.
  intro Hn. split.
  - apply slices_fuel_concat; [exact Hn | apply le_n].
  - apply slices_fuel_bounded, Hn.
Qed.

Lemma slices_split_the_rows_witness :
  (1 <= 2)%nat
  /\ (List.concat (slices 2 [1; 2; 3; 4; 5]) = [1; 2; 3; 4; 5]
      /\ Forall (fun b => (1 <= List.length b <= 2)%nat) (slices 2 [1; 2; 3; 4; 5])).
Proof.
  split; [lia|].
  apply (slices_split_the_rows 2 [1; 2; 3; 4; 5]). lia.
Defined.

(** X15. When the storage layer does not fail, a turn on a non-empty input
    with a database appends exactly one row to the committed conversation
    log: it carries the input, the reply's message, score and
    recommendations, the session identifier, and the next key. *)
Theorem on_user_input_logs_reply `{SortValues} (fallback : list Item.t)
        (session_id now : string) (a : ascii) (rest : string) (w : Sqlite.World) :
  Sqlite.faults w = [] ->
  exists w' reply,
    on_user_input true fallback session_id now (String a rest) w = (w', Ok (Some reply))
    /\ Sqlite.stdout w' = Sqlite.stdout w
    /\ Sqlite.conversations (Sqlite.durable (Sqlite.conn w'))
       = (Sqlite.conversations (Sqlite.working (Sqlite.conn w))
          ++ [logged_turn now (String a rest) (Reply.bot_msg reply) (Reply.score reply)
                (Some (Reply.recs reply)) session_id
                (Z.of_nat (List.length
                   (Sqlite.conversations (Sqlite.working (Sqlite.conn w)))) + 1)])%list.
Proof.
  intro Hf. destruct w as [c out fs]. cbn in Hf. subst fs.
  unfold on_user_input. cbv zeta.
  unfold bind, get_working, ret, log_conversation, try_except, db_step.
  cbn [Sqlite.faults Sqlite.conn Sqlite.stdout].
  eexists. eexists. split; [reflexivity|]. split; reflexivity.
Qed.

Lemma on_user_input_logs_reply_witness :
  Sqlite.faults seeded_world = []
  /\ exists w' reply,
       @on_user_input stable_sort true [] "SID1234" "2024-01-01T12:00:00"
                      (String "b" "urger") seeded_world = (w', Ok (Some reply))
       /\ Sqlite.stdout w' = Sqlite.stdout seeded_world
       /\ Sqlite.conversations (Sqlite.durable (Sqlite.conn w'))
          = (Sqlite.conversations (Sqlite.working (Sqlite.conn seeded_world))
             ++ [logged_turn "2024-01-01T12:00:00" (String "b" "urger")
                   (Reply.bot_msg reply) (Reply.score reply)
                   (Some (Reply.recs reply)) "SID1234"
                   (Z.of_nat (List.length
                      (Sqlite.conversations
                         (Sqlite.working (Sqlite.conn seeded_world)))) + 1)])%list.
Proof.
  split; [reflexivity|].
  exact (@on_user_input_logs_reply stable_sort [] "SID1234" "2024-01-01T12:00:00"
           "b" "urger" seeded_world eq_refl).
Defined.

(** A frame of at most ten rows is returned whole. *)
Lemma ranked_small_frame `{SortValues} (score : Item.t -> Z) (rows : list Item.t) :
  (List.length rows <= 10)%nat ->
  Permutation
    (map item_of (head10 (sort_values_desc (map (fun r => (r, score r)) rows))))
    rows.
Proof.
  intro Hlen. unfold head10. rewrite firstn_all2.
  - apply Permutation_trans with (map item_of (map (fun r => (r, score r)) rows)).
    + apply Permutation_map, Permutation_sym, sort_values_perm.
    + rewrite map_map. cbn. rewrite map_id. apply Permutation_refl.
  - rewrite <- (Permutation_length (sort_values_perm _)), length_map. exact Hlen.
Qed.

(** X16. On the generated catalog, whatever is drawn, asking for one of the
    three categories the application detects returns exactly the four
    products generated for this category, and none of another category
    whose name mentions it (the pizza "BBQ Chicken Pineapple" and the wrap
    "Buffalo Chicken Wrap" are not returned for Fried Chicken). *)
Theorem generated_catalog_category_query `{SortValues} (draws : nat -> Draw.t)
        (mood : option string) (keywords : option (list string)) :
  let tbl := map make_row (generate_products draws) in
  let generated cat names pid :=
    map make_row (fst (generate_names draws cat names pid)) in
  Permutation
    (map item_of (recommend_products tbl mood None (Some "Burgers") keywords))
    (generated "Burgers"
       ["Spicy Fusion Dragon Burger"; "Classic All-American Burger";
        "Plant-Based Beyond Burger"; "BBQ Bacon Cheeseburger"] 1%nat)
  /\ Permutation
       (map item_of (recommend_products tbl mood None (Some "Pizza") keywords))
       (generated "Pizza"
          ["Margherita Classica"; "Meat Lovers Supreme";
           "BBQ Chicken Pineapple"; "Vegan Mediterranean"] 5%nat)
  /\ Permutation
       (map item_of (recommend_products tbl mood None (Some "Fried Chicken") keywords))
       (generated "Fried Chicken"
          ["Nashville Hot Wings"; "Honey Garlic Tenders";
           "Korean Fried Chicken"; "Classic Fried Chicken"] 9%nat).
Proof.
  cbv zeta. repeat split; rewrite recommend_products_stages;
    match goal with
    | |- Permutation (map item_of (head10 (sort_values_desc (map ?f ?sel)))) ?rows =>
        replace sel with rows by (vm_compute; reflexivity)
    end;
    apply (ranked_small_frame (db_match_score mood keywords)); cbn; lia.
Qed.
